(** * Cuckoo web: process tree, pagination bar and behavior view

    A shallow embedding of [cuckoo/web/src/scripts/process_tree.js]:
    the [Tree] branch toggle, the [PaginationBar] renderer and its click
    handling, and the [ProcessBehaviorView] controller with its
    asynchronous chunk loading. *)

From Stdlib Require Import ZArith String Ascii Decimal DecimalString DecimalZ.
From stdpp Require Import base decidable option list sorting gmap strings.
From Equations Require Import Equations.

#[local] Set Warnings "-clear-no-such-hyp".

Local Open Scope string_scope.
Local Open Scope list_scope.
Local Open Scope Z_scope.

(** ** JavaScript values used by the script *)

(** Numbers.  Page numbers are integers; the only non-integer the script can
    produce is [NaN] (from [parseInt] or from arithmetic on [undefined]). *)
Inductive JsNum :=
| NaN
| Int (z : Z).

#[global] Instance JsNum_eq_dec : EqDecision JsNum.
Proof. solve_decision. Defined.

(** [a + k] and [a - k] for a literal [k]. *)
Definition num_add (a : JsNum) (k : Z) : JsNum :=
  match a with Int z => Int (z + k) | NaN => NaN end.

Definition num_sub (a : JsNum) (k : Z) : JsNum :=
  match a with Int z => Int (z - k) | NaN => NaN end.

(** Comparisons: every comparison with [NaN] is false. *)
Definition num_lt (a b : JsNum) : bool :=
  match a, b with Int x, Int y => x <? y | _, _ => false end.

Definition num_gt (a b : JsNum) : bool := num_lt b a.

Definition num_eq (a b : JsNum) : bool :=
  match a, b with Int x, Int y => x =? y | _, _ => false end.

(** [Math.max] and [Math.min] return [NaN] as soon as an argument is. *)
Definition Math_max (a b : JsNum) : JsNum :=
  match a, b with Int x, Int y => Int (Z.max x y) | _, _ => NaN end.

Definition Math_min (a b : JsNum) : JsNum :=
  match a, b with Int x, Int y => Int (Z.min x y) | _, _ => NaN end.

(** Decimal rendering of an integer, as string conversion does. *)
Definition num_to_string (z : Z) : string :=
  NilZero.string_of_int (Z.to_int z).

(** The values that flow through pids, pages and filters. *)
Inductive JsVal :=
| VUndefined
| VNull
| VNum (n : JsNum)
| VStr (s : string).

#[global] Instance JsVal_eq_dec : EqDecision JsVal.
Proof. solve_decision. Defined.

(** Truthiness, as tested by [if(x)] and [!x]. *)
Definition truthy (v : JsVal) : bool :=
  match v with
  | VUndefined | VNull => false
  | VNum NaN => false
  | VNum (Int z) => negb (z =? 0)
  | VStr s => negb (String.eqb s "")
  end.

(** String conversion inside a template literal. *)
Definition to_string (v : JsVal) : string :=
  match v with
  | VUndefined => "undefined"
  | VNull => "null"
  | VNum NaN => "NaN"
  | VNum (Int z) => num_to_string z
  | VStr s => s
  end.

(** *** [parseInt] on decimal text

    Optional sign, then the longest prefix of decimal digits; [NaN] when
    there is no digit.  (Leading blanks and the hexadecimal prefix are not
    modelled: the script only parses the text of its own [page:] links.) *)
Definition digit_of (c : ascii) : option (uint -> uint) :=
  match c with
  | "0"%char => Some D0 | "1"%char => Some D1 | "2"%char => Some D2
  | "3"%char => Some D3 | "4"%char => Some D4 | "5"%char => Some D5
  | "6"%char => Some D6 | "7"%char => Some D7 | "8"%char => Some D8
  | "9"%char => Some D9
  | _ => None
  end.

Fixpoint digit_prefix (s : string) : uint :=
  match s with
  | EmptyString => Nil
  | String c s' =>
      match digit_of c with
      | Some d => d (digit_prefix s')
      | None => Nil
      end
  end.

Definition parse_unsigned (s : string) : option Z :=
  match digit_prefix s with
  | Nil => None
  | d => Some (Z.of_uint d)
  end.

Definition parseInt (s : string) : JsNum :=
  let r :=
    match s with
    | String "-"%char s' => Z.opp <$> parse_unsigned s'
    | String "+"%char s' => parse_unsigned s'
    | _ => parse_unsigned s
    end in
  match r with Some z => Int z | None => NaN end.

(** [s.replace(pat, '')]: removes the first occurrence of [pat]. *)
Fixpoint remove_first (pat s : string) : string :=
  match s with
  | EmptyString => EmptyString
  | String c s' =>
      if String.prefix pat s
      then String.substring (String.length pat) (String.length s) s
      else String c (remove_first pat s')
  end.

(** ** PaginationBar *)

Module PaginationBar.

(** *** The rendered links *)

(** The argument of [_page]: a number, or the text ['...']. *)
Inductive PageArg :=
| PNum (n : JsNum)
| PDots.

#[global] Instance PageArg_eq_dec : EqDecision PageArg.
Proof. solve_decision. Defined.

(** One [<li><a/></li>] item: the link text, whether the link carries the
    class [active], and its [href] attribute if it has one. *)
Record Link := {
  text : PageArg;
  active : bool;
  href : option string
}.

#[global] Instance Link_eq_dec : EqDecision Link.
Proof. solve_decision. Defined.

(** The callbacks the script installs as [onPaginate]. *)
Inductive Callback :=
| CbDefault                 (* function() { return this; } *)
| CbLoadPage (pid : JsVal). (* renderBar's closure over [pid] *)

Record Config := {
  container : bool;         (* is a container element configured? *)
  currentPage : JsNum;
  totalPages : JsNum;
  display : JsNum;
  onPaginate : Callback
}.

(** [n == config.currentPage]: the text ['...'] converts to [NaN]. *)
Definition arg_eq (n : PageArg) (p : JsNum) : bool :=
  match n with
  | PNum m => num_eq m p
  | PDots => false
  end.

(** [isNaN(n)] *)
Definition isNaN (n : PageArg) : bool :=
  match n with
  | PNum (Int _) => false
  | PNum NaN => true
  | PDots => true
  end.

Definition arg_to_string (n : PageArg) : string :=
  match n with
  | PNum m => to_string (VNum m)
  | PDots => "..."
  end.

(** [_page(n)], the local function of [render]. *)
Definition _page (config : Config) (n : PageArg) : Link :=
  {| text := n;
     active := arg_eq n (currentPage config);
     href := if negb (isNaN n) then Some ("page:" +:+ arg_to_string n) else None |}.

(** The loop [for (var i = pageMin; i <= pageMax; i++) html.append(_page(i))]. *)
Equations? page_loop (config : Config) (i pageMax : Z) (html : list Link)
  : list Link by wf (Z.to_nat (pageMax + 1 - i)) lt :=
  page_loop config i pageMax html with decide (i <= pageMax) => {
    | left _ := page_loop config (i + 1) pageMax (html ++ [_page config (PNum (Int i))]);
    | right _ := html }.
Proof. lia. Qed.

Definition page_for (config : Config) (pageMin pageMax : JsNum) (html : list Link)
  : list Link :=
  match pageMin, pageMax with
  | Int lo, Int hi => page_loop config lo hi html
  | _, _ => html
  end.

(** The list built by [render], before it is placed or returned. *)
Definition render_html (config : Config) : list Link :=
  let html := [] in
  let html := html ++ [_page config (PNum (Int 1))] in
  let html :=
    if num_gt (num_sub (currentPage config) 10) (Int 2)
    then html ++ [_page config PDots] else html in
  let pageMin := Math_max (Int 2) (num_sub (currentPage config) 10) in
  let pageMax := Math_min (totalPages config) (num_add (currentPage config) 10) in
  let html := page_for config pageMin pageMax html in
  if num_lt (num_add (currentPage config) 10) (totalPages config)
  then (html ++ [_page config PDots]) ++ [_page config (PNum (totalPages config))]
  else html.

(** *** The object *)

(** The object literal passed to the constructor; [None] is an absent (or
    [undefined]) property, which [$.extend] does not copy. *)
Record Options := {
  opt_container : option bool;
  opt_currentPage : option JsNum;
  opt_totalPages : option JsNum;
  opt_display : option JsNum;
  opt_onPaginate : option Callback
}.

Definition extend (options : Options) : Config :=
  {| container := default false (opt_container options);
     currentPage := default (Int 1) (opt_currentPage options);
     totalPages := default (Int 40) (opt_totalPages options);
     display := default (Int 20) (opt_display options);
     onPaginate := default CbDefault (opt_onPaginate options) |}.

(** A bar: its configuration and whether [this.$] has been assigned.  The
    children of the container element are passed alongside the bar. *)
Record Bar := {
  config : Config;
  dollar : bool
}.

Definition set_page (p : JsNum) (b : Bar) : Bar :=
  {| config :=
       {| container := container (config b);
          currentPage := p;
          totalPages := totalPages (config b);
          display := display (config b);
          onPaginate := onPaginate (config b) |};
     dollar := dollar b |}.

(** [bind(pages)]: click handlers go on the links that have an [href]
    (see [click]); [this.$ = pages]. *)
Definition bind (b : Bar) : Bar :=
  {| config := config b; dollar := true |}.

(** [render()]: the bar, the container's children, and the returned list
    (returned only when no container is configured). *)
Definition render (b : Bar) (children : list Link)
  : Bar * list Link * option (list Link) :=
  let html := render_html (config b) in
  if container (config b)
  then (bind b, html, None)
  else (b, children, Some html).

(** [new PaginationBar(options)] *)
Definition new_bar (options : Options) (children : list Link) : Bar * list Link :=
  fst (render {| config := extend options; dollar := false |} children).

(** [goto(n)].  The last component is the call [onPaginate(n)] that ends the
    method, made once the bar has been rendered again. *)
Definition goto (n : string) (b : Bar) (children : list Link)
  : Bar * list Link * (Callback * JsVal) :=
  let b := set_page (parseInt n) b in
  let '(b, children, _) := render b children in
  (b, children, (onPaginate (config b), VStr n)).

(** A click on the [i]-th item of the container.  Only a link that was bound,
    that is one with an [href], has a handler. *)
Definition click (i : nat) (b : Bar) (children : list Link)
  : option (Bar * list Link * (Callback * JsVal)) :=
  if dollar b then
    match children !! i with
    | Some l =>
        match href l with
        | Some h => Some (goto (remove_first "page:" h) b children)
        | None => None
        end
    | None => None
    end
  else None.

(** [destroy()]: [this.$.empty()]; [None] is the [TypeError] on a bar whose
    [this.$] is still [null]. *)
Definition destroy (b : Bar) (children : list Link) : option (list Link) :=
  if dollar b then Some [] else None.

End PaginationBar.

(** ** Tree *)

Module Tree.

(** Sets of class names of an element. *)
Definition toggleClass (c : string) (cs : gset string) : gset string :=
  if decide (c ∈ cs) then cs ∖ {[c]} else cs ∪ {[c]}.

(** [toggleClass(c, state)] adds the class when [state], removes it when not. *)
Definition toggleClass_to (c : string) (state : bool) (cs : gset string)
  : gset string :=
  if state then cs ∪ {[c]} else cs ∖ {[c]}.

Definition addClass (c : string) (cs : gset string) : gset string := cs ∪ {[c]}.
Definition removeClass (c : string) (cs : gset string) : gset string := cs ∖ {[c]}.

(** [hasClass] on a matched set: true when some element has the class. *)
Definition hasClass (c : string) (els : list (gset string)) : bool :=
  existsb (fun cs => bool_decide (c ∈ cs)) els.

(** A toggle control together with what [$toggle.closest('li').children('ul')]
    selects: the class sets of the lists nested directly in the nearest
    enclosing item (none when there is no such item or list). *)
Record Branch := {
  toggle : gset string;
  nested : list (gset string)
}.

Definition toggleBranch (b : Branch) : Branch :=
  let targetList := toggleClass "open" <$> nested b in
  {| toggle := toggleClass_to "is-open" (hasClass "open" targetList) (toggle b);
     nested := targetList |}.

(** The tree element and the branches of its toggle controls. *)
Record TreeDom := {
  el_classes : gset string;
  el_initialized : bool;
  branches : list Branch
}.

(** [new Tree(el, id)]: flags the element and runs [setup()]. *)
Definition new_tree (t : TreeDom) : TreeDom :=
  {| el_classes := addClass "open" (el_classes t);
     el_initialized := true;
     branches := branches t |}.

(** The click handler bound by [setup()] on the [i]-th toggle. *)
Definition click_toggle (i : nat) (t : TreeDom) : TreeDom :=
  {| el_classes := el_classes t;
     el_initialized := el_initialized t;
     branches := alter toggleBranch i (branches t) |}.

End Tree.

(** ** ProcessBehaviorView *)

Module ProcessBehaviorView.

Inductive Err :=
| TypeError
| SyntaxError.

(** Modelled from the spec: the [Loader] class is defined elsewhere in the
    web sources; [start()] starts the loading indicator and [stop()] stops
    it. *)
Record Loader := { loading : bool }.

(** A link of the tag filter container. *)
Record Tag := {
  tag_href : string;
  tag_classes : gset string
}.

(** The process record read from the embedded script; an absent property
    reads as [undefined]. *)
Record ProcessData := {
  pid : JsVal;
  ppid : JsVal;
  name : JsVal
}.

Definition empty_record : ProcessData :=
  {| pid := VUndefined; ppid := VUndefined; name := VUndefined |}.

(** What [JSON.parse] returns: [null], on which reading a property throws,
    or a value whose properties can be read; a number, a string, a boolean
    or an array reads as a record without the three properties. *)
Inductive Parsed :=
| JNull
| JRecord (data : ProcessData).

(** What [$.parseHTML(res)[0]] yields for a table fragment: its classes, the
    number of [thead th] cells and the children of its [tbody]. *)
Record Fragment := {
  frag_classes : gset string;
  frag_columns : nat;
  frag_rows : list string
}.

Inductive Row :=
| DataRow (html : string)
| NoResultRow (colspan : nat).   (* the cell with "No results" and its button *)

Record Table := {
  table_classes : gset string;
  rows : list Row
}.

Record Placeholders := {
  detail_pid : string;
  detail_ppid : string;
  detail_name : string
}.

(** Effects in program order. *)
Inductive Event :=
| EvSetCurrentPid (v : JsVal)
| EvSetCurrentPage (v : JsVal)
| EvLoaderStart
| EvLoaderStop
| EvGet (url : string)
| EvBarDestroy
| EvBarRender (html : list PaginationBar.Link)
| EvOnPaginate (arg : JsVal)
| EvTable (t : option Table)
| EvTagsReset.

(** The view object, the part of the document it works on, the requests in
    flight and the effects so far. *)
Record World := {
  _bar : option PaginationBar.Bar;
  _loader : option Loader;
  currentPage : JsVal;
  currentPid : JsVal;
  pagination : list PaginationBar.Link;  (* children of .process-spec--pagination *)
  tags : list Tag;                        (* links of .process-spec--tags *)
  behavior_table : option Table;          (* content of #behavior-table *)
  loaded_shown : bool;
  unloaded_shown : bool;
  placeholders : Placeholders;
  panes : list (gset string);             (* tree and detail panes *)
  tree : Tree.TreeDom;
  requests : list string;                 (* urls of the requests in flight *)
  trace : list Event
}.

Definition set_bar (x : option PaginationBar.Bar) (w : World) : World :=
  {| _bar := x; _loader := _loader w; currentPage := currentPage w;
     currentPid := currentPid w; pagination := pagination w; tags := tags w;
     behavior_table := behavior_table w; loaded_shown := loaded_shown w;
     unloaded_shown := unloaded_shown w; placeholders := placeholders w;
     panes := panes w; tree := tree w; requests := requests w; trace := trace w |}.

Definition set_loader (x : option Loader) (w : World) : World :=
  {| _bar := _bar w; _loader := x; currentPage := currentPage w;
     currentPid := currentPid w; pagination := pagination w; tags := tags w;
     behavior_table := behavior_table w; loaded_shown := loaded_shown w;
     unloaded_shown := unloaded_shown w; placeholders := placeholders w;
     panes := panes w; tree := tree w; requests := requests w; trace := trace w |}.

Definition set_currentPage (x : JsVal) (w : World) : World :=
  {| _bar := _bar w; _loader := _loader w; currentPage := x;
     currentPid := currentPid w; pagination := pagination w; tags := tags w;
     behavior_table := behavior_table w; loaded_shown := loaded_shown w;
     unloaded_shown := unloaded_shown w; placeholders := placeholders w;
     panes := panes w; tree := tree w; requests := requests w; trace := trace w |}.

Definition set_currentPid (x : JsVal) (w : World) : World :=
  {| _bar := _bar w; _loader := _loader w; currentPage := currentPage w;
     currentPid := x; pagination := pagination w; tags := tags w;
     behavior_table := behavior_table w; loaded_shown := loaded_shown w;
     unloaded_shown := unloaded_shown w; placeholders := placeholders w;
     panes := panes w; tree := tree w; requests := requests w; trace := trace w |}.

Definition set_pagination (x : list PaginationBar.Link) (w : World) : World :=
  {| _bar := _bar w; _loader := _loader w; currentPage := currentPage w;
     currentPid := currentPid w; pagination := x; tags := tags w;
     behavior_table := behavior_table w; loaded_shown := loaded_shown w;
     unloaded_shown := unloaded_shown w; placeholders := placeholders w;
     panes := panes w; tree := tree w; requests := requests w; trace := trace w |}.

Definition set_tags (x : list Tag) (w : World) : World :=
  {| _bar := _bar w; _loader := _loader w; currentPage := currentPage w;
     currentPid := currentPid w; pagination := pagination w; tags := x;
     behavior_table := behavior_table w; loaded_shown := loaded_shown w;
     unloaded_shown := unloaded_shown w; placeholders := placeholders w;
     panes := panes w; tree := tree w; requests := requests w; trace := trace w |}.

(** The detail pane after a table was placed: table, loaded and unloaded
    regions. *)
Definition set_detail (t : option Table) (l u : bool) (w : World) : World :=
  {| _bar := _bar w; _loader := _loader w; currentPage := currentPage w;
     currentPid := currentPid w; pagination := pagination w; tags := tags w;
     behavior_table := t; loaded_shown := l;
     unloaded_shown := u; placeholders := placeholders w;
     panes := panes w; tree := tree w; requests := requests w; trace := trace w |}.

Definition set_placeholders (x : Placeholders) (w : World) : World :=
  {| _bar := _bar w; _loader := _loader w; currentPage := currentPage w;
     currentPid := currentPid w; pagination := pagination w; tags := tags w;
     behavior_table := behavior_table w; loaded_shown := loaded_shown w;
     unloaded_shown := unloaded_shown w; placeholders := x;
     panes := panes w; tree := tree w; requests := requests w; trace := trace w |}.

Definition set_panes (x : list (gset string)) (w : World) : World :=
  {| _bar := _bar w; _loader := _loader w; currentPage := currentPage w;
     currentPid := currentPid w; pagination := pagination w; tags := tags w;
     behavior_table := behavior_table w; loaded_shown := loaded_shown w;
     unloaded_shown := unloaded_shown w; placeholders := placeholders w;
     panes := x; tree := tree w; requests := requests w; trace := trace w |}.

Definition set_tree (x : Tree.TreeDom) (w : World) : World :=
  {| _bar := _bar w; _loader := _loader w; currentPage := currentPage w;
     currentPid := currentPid w; pagination := pagination w; tags := tags w;
     behavior_table := behavior_table w; loaded_shown := loaded_shown w;
     unloaded_shown := unloaded_shown w; placeholders := placeholders w;
     panes := panes w; tree := x; requests := requests w; trace := trace w |}.

Definition set_requests (x : list string) (w : World) : World :=
  {| _bar := _bar w; _loader := _loader w; currentPage := currentPage w;
     currentPid := currentPid w; pagination := pagination w; tags := tags w;
     behavior_table := behavior_table w; loaded_shown := loaded_shown w;
     unloaded_shown := unloaded_shown w; placeholders := placeholders w;
     panes := panes w; tree := tree w; requests := x; trace := trace w |}.

Definition log (e : Event) (w : World) : World :=
  {| _bar := _bar w; _loader := _loader w; currentPage := currentPage w;
     currentPid := currentPid w; pagination := pagination w; tags := tags w;
     behavior_table := behavior_table w; loaded_shown := loaded_shown w;
     unloaded_shown := unloaded_shown w; placeholders := placeholders w;
     panes := panes w; tree := tree w; requests := requests w;
     trace := trace w ++ [e] |}.

(** *** Methods as state transformers that may throw *)

Inductive Res (A : Type) :=
| Ok (a : A)
| Throw (e : Err).
Arguments Ok {A} a.
Arguments Throw {A} e.

(** A thrown exception keeps the world as it was when it was thrown. *)
Definition M (A : Type) : Type := World -> Res A * World.

Definition ret {A} (a : A) : M A := fun w => (Ok a, w).

Definition bind {A B} (m : M A) (k : A -> M B) : M B :=
  fun w =>
    match m w with
    | (Ok a, w') => k a w'
    | (Throw e, w') => (Throw e, w')
    end.

Definition throw {A} (e : Err) : M A := fun w => (Throw e, w).
Definition get : M World := fun w => (Ok w, w).
Definition modify (f : World -> World) : M unit := fun w => (Ok tt, f w).

Notation "x <- m ;; k" := (bind m (fun x => k))
  (at level 100, m at next level, right associativity).
Notation "m ;;; k" := (bind m (fun _ => k))
  (at level 100, right associativity).

(** An event handler run by the browser: an uncaught exception ends the
    handler and leaves the world as it is. *)
Definition run (m : M unit) (w : World) : World := snd (m w).

(** [s.split(sep)] for a one-character separator. *)
Fixpoint split (sep : ascii) (s : string) : list string :=
  match s with
  | EmptyString => [EmptyString]
  | String c s' =>
      if Ascii.eqb c sep then EmptyString :: split sep s'
      else match split sep s' with
           | h :: t => String c h :: t
           | [] => [String c EmptyString]
           end
  end.

(** [a[i]] on an array of strings. *)
Definition index (a : list string) (i : nat) : JsVal :=
  match a !! i with Some s => VStr s | None => VUndefined end.

(** [.text(v)]: with [undefined] it only reads; [null] gives the empty text. *)
Definition set_text (v : JsVal) (old : string) : string :=
  match v with
  | VUndefined => old
  | VNull => ""
  | _ => to_string v
  end.

(** [removeClass('active')] on a tag link. *)
Definition clear_active (t : Tag) : Tag :=
  {| tag_href := tag_href t;
     tag_classes := Tree.removeClass "active" (tag_classes t) |}.

Definition set_active (t : Tag) : Tag :=
  {| tag_href := tag_href t;
     tag_classes := Tree.addClass "active" (tag_classes t) |}.

Section Methods.

(** The page's globals and the browser's parsers. *)
Variable task_id : JsVal.                                (* window.task_id *)
Variable PROCESS_TREE_PAGINATION_INFO : gmap string Z.   (* pid -> total pages *)
Variable JSON_parse : string -> option Parsed.           (* [None]: it throws *)
Variable parseHTML : string -> option Fragment.          (* $.parseHTML(res)[0] *)

(** [parseProcessData(scr)]; [None] is a falsy [scr], [Some t] an element
    set whose [text()] is [t]. *)
Definition parseProcessData (scr : option string) : M Parsed :=
  match scr with
  | None => ret (JRecord empty_record)
  | Some t =>
      match JSON_parse t with
      | Some data => ret data
      | None => throw SyntaxError
      end
  end.

(** [this._loader.start()] and [this._loader.stop()] *)
Definition loader_start : M unit :=
  fun w =>
    match _loader w with
    | Some _ => (Ok tt, log EvLoaderStart (set_loader (Some {| loading := true |}) w))
    | None => (Throw TypeError, w)
    end.

Definition loader_stop : M unit :=
  fun w =>
    match _loader w with
    | Some _ => (Ok tt, log EvLoaderStop (set_loader (Some {| loading := false |}) w))
    | None => (Throw TypeError, w)
    end.

(** [$.get(url, callback)]: the request is in flight; its callback is
    [on_success] below. *)
Definition http_get (url : string) : M unit :=
  modify (fun w => log (EvGet url) (set_requests (requests w ++ [url]) w)).

Definition chunk_url (pid page : JsVal) : string :=
  "/analysis/chunk/" +:+ to_string task_id +:+ "/" +:+ to_string pid
    +:+ "/" +:+ to_string page.

Definition filtered_url (pid filter : JsVal) : string :=
  "/analysis/filtered/" +:+ to_string task_id +:+ "/" +:+ to_string pid
    +:+ "/" +:+ to_string filter.

(** [loadChunk(pid, filter)]; a missing [filter] is [undefined]. *)
Definition loadChunk (pid filter : JsVal) : M unit :=
  modify (fun w => log (EvSetCurrentPid pid) (set_currentPid pid w)) ;;;
  w <- get ;;
  let url :=
    if negb (truthy filter)
    then chunk_url pid (currentPage w)
    else filtered_url pid filter in
  if negb (Nat.eqb (String.length url) 0)
  then loader_start ;;; http_get url
  else ret tt.

(** The table as restyled by [renderTable]. *)
Definition restyle (f : Fragment) : Table :=
  {| table_classes :=
       Tree.addClass "cuckoo-table"
         (Tree.removeClass "table-bordered"
            (Tree.removeClass "table" (frag_classes f)));
     rows := DataRow <$> frag_rows f |}.

Definition append_row (r : Row) (t : Table) : Table :=
  {| table_classes := table_classes t; rows := rows t ++ [r] |}.

(** [renderTable(plainTextResponse)].  Without a first node the selections
    are empty: nothing is placed and nothing is appended. *)
Definition renderTable (plainTextResponse : string) : M unit :=
  let table := parseHTML plainTextResponse in
  let tableColumns := from_option frag_columns 0%nat table in
  let tableChildren := from_option frag_rows [] table in
  modify (fun w =>
    let placed :=
      match table with
      | Some f => Some (restyle f)
      | None => behavior_table w
      end in
    log (EvTable placed) (set_detail placed true false w)) ;;;
  if Nat.eqb (length tableChildren) 0 then
    let noResultCell := NoResultRow tableColumns in
    match table with
    | Some f =>
        modify (fun w =>
          set_detail (append_row noResultCell <$> behavior_table w)
            (loaded_shown w) (unloaded_shown w) w)
    | None => ret tt
    end
  else ret tt.

(** The callback given to [$.get]. *)
Definition on_success (res : string) : M unit :=
  loader_stop ;;;
  renderTable res.

(** [this._bar.destroy()] *)
Definition bar_destroy (b : PaginationBar.Bar) : M unit :=
  fun w =>
    match PaginationBar.destroy b (pagination w) with
    | Some children => (Ok tt, log EvBarDestroy (set_pagination children w))
    | None => (Throw TypeError, w)
    end.

(** [renderBar(pid, current)] *)
Definition renderBar (pid current : JsVal) : M unit :=
  modify (fun w => log (EvSetCurrentPage current) (set_currentPage current w)) ;;;
  w <- get ;;
  match _bar w with Some b => bar_destroy b | None => ret tt end ;;;
  modify (fun w =>
    let '(b, children) :=
      PaginationBar.new_bar
        {| PaginationBar.opt_container := Some true;
           PaginationBar.opt_currentPage := None;
           PaginationBar.opt_totalPages :=
             Int <$> PROCESS_TREE_PAGINATION_INFO !! to_string pid;
           PaginationBar.opt_display := None;
           PaginationBar.opt_onPaginate := Some (PaginationBar.CbLoadPage pid) |}
        (pagination w) in
    log (EvBarRender children) (set_bar (Some b) (set_pagination children w))).

(** [populate(el)]; reading [data.pid] throws when [data] is [null]. *)
Definition populate (el : option string) : M unit :=
  data <- parseProcessData el ;;
  match data with
  | JNull => throw TypeError
  | JRecord data =>
      modify (fun w =>
        set_placeholders
          {| detail_pid := set_text (pid data) (detail_pid (placeholders w));
             detail_ppid := set_text (ppid data) (detail_ppid (placeholders w));
             detail_name := set_text (name data) (detail_name (placeholders w)) |} w) ;;;
      renderBar (pid data) (VNum (Int 1))
  end.

(** Running an [onPaginate] callback. *)
Definition call (cb : PaginationBar.Callback) (page : JsVal) : M unit :=
  match cb with
  | PaginationBar.CbDefault => ret tt
  | PaginationBar.CbLoadPage pid =>
      modify (fun w => log (EvSetCurrentPage page) (set_currentPage page w)) ;;;
      loadChunk pid VUndefined
  end.

(** *** Event handlers *)

(** The click handler of the reset button in the "No results" row. *)
Definition reset_filter : M unit :=
  w <- get ;;
  if truthy (currentPid w) then
    modify (fun w => log EvTagsReset (set_tags (clear_active <$> tags w) w)) ;;;
    loadChunk (currentPid w) VUndefined
  else ret tt.

Definition has_reset_button (w : World) : bool :=
  match behavior_table w with
  | Some t => existsb (fun r => match r with NoResultRow _ => true | _ => false end) (rows t)
  | None => false
  end.

(** The handler of a [data-load] node of the tree. *)
Definition on_load (load : JsVal) (script : string) : M unit :=
  loadChunk load VUndefined ;;;
  populate (Some script) ;;;
  modify (fun w => set_tags (clear_active <$> tags w) w).

(** The handler of a tag link whose [href] starts with [filter:]. *)
Definition on_filter (i : nat) (t : Tag) : M unit :=
  w <- get ;;
  match _bar w with Some b => bar_destroy b | None => ret tt end ;;;
  w <- get ;;
  loadChunk (currentPid w) (index (split ":"%char (tag_href t)) 1) ;;;
  modify (fun w => set_tags (alter set_active i (clear_active <$> tags w)) w).

(** The handler of a pane header: toggles [open] on its ancestor panes. *)
Definition on_header (ancestors : list nat) : M unit :=
  modify (fun w =>
    set_panes (foldr (fun i => alter (Tree.toggleClass "open") i) (panes w) ancestors) w).

(** The handler of a page link of the bar. *)
Definition on_page (i : nat) : M unit :=
  w <- get ;;
  match _bar w with
  | Some b =>
      match PaginationBar.click i b (pagination w) with
      | Some (b', children, (cb, arg)) =>
          modify (fun w =>
            let w := set_bar (Some b') (set_pagination children w) in
            if PaginationBar.container (PaginationBar.config b')
            then log (EvBarRender children) w else w) ;;;
          modify (log (EvOnPaginate arg)) ;;;
          call cb arg
      | None => ret tt
      end
  | None => ret tt
  end.

(** What can happen to a view: clicks, and the end of a request in flight. *)
Inductive Input :=
| ClickToggle (i : nat)
| ClickHeader (ancestors : list nat)
| ClickLoad (load : JsVal) (script : string)
| ClickFilter (i : nat)
| ClickPage (i : nat)
| ClickReset
| Success (i : nat) (res : string)
| Failure (i : nat).

Definition handler (x : Input) : M unit :=
  match x with
  | ClickToggle i => modify (fun w => set_tree (Tree.click_toggle i (tree w)) w)
  | ClickHeader ancestors => on_header ancestors
  | ClickLoad load script => on_load load script
  | ClickFilter i =>
      w <- get ;;
      match tags w !! i with
      | Some t => if String.prefix "filter:" (tag_href t) then on_filter i t else ret tt
      | None => ret tt
      end
  | ClickPage i => on_page i
  | ClickReset =>
      w <- get ;;
      if has_reset_button w then reset_filter else ret tt
  | Success i res =>
      w <- get ;;
      match requests w !! i with
      | Some _ => modify (fun w => set_requests (delete i (requests w)) w) ;;; on_success res
      | None => ret tt
      end
  | Failure i => modify (fun w => set_requests (delete i (requests w)) w)
  end.

Definition step (w : World) (x : Input) : World := run (handler x) w.

Definition steps (w : World) (xs : list Input) : World := foldl step w xs.

(** *** Construction *)

(** The document the view is built on. *)
Record Page := {
  page_tree : Tree.TreeDom;
  page_tags : list Tag;
  page_loading : nat;                     (* how many .loading elements *)
  page_pagination : list PaginationBar.Link;
  page_table : option Table;
  page_loaded : bool;
  page_unloaded : bool;
  page_placeholders : Placeholders;
  page_panes : list (gset string)
}.

(** [new ProcessBehaviorView(el)] *)
Definition new_view (p : Page) : World :=
  let has_loader := negb (Nat.eqb (page_loading p) 0) in
  {| _bar := None;
     _loader := if has_loader then Some {| loading := false |} else None;
     currentPage := VNum (Int 1);
     currentPid := VNull;
     pagination := page_pagination p;
     tags := page_tags p;
     behavior_table := page_table p;
     loaded_shown := page_loaded p;
     unloaded_shown := page_unloaded p;
     placeholders := page_placeholders p;
     panes := page_panes p;
     tree := Tree.new_tree (page_tree p);
     requests := [];
     trace := if has_loader then [EvLoaderStop] else [] |}.

End Methods.

End ProcessBehaviorView.

(** ** Vocabulary of the statements *)

Section Vocabulary.

Import PaginationBar.

(** The pages [lo .. hi] in increasing order. *)
Definition page_range (lo hi : Z) : list Z := seqZ lo (hi + 1 - lo).

(** A configuration whose page numbers are integers. *)
Definition int_config (c : bool) (cp tp : Z) (d : JsNum) (cb : Callback) : Config :=
  {| container := c; currentPage := Int cp; totalPages := Int tp;
     display := d; onPaginate := cb |}.

(** The arguments [render] passes to [_page], in order. *)
Definition render_args (cp tp : Z) : list PageArg :=
  [PNum (Int 1)]
  ++ (if decide (2 < cp - 10) then [PDots] else [])
  ++ (PNum ∘ Int <$> page_range (Z.max 2 (cp - 10)) (Z.min tp (cp + 10)))
  ++ (if decide (cp + 10 < tp) then [PDots; PNum (Int tp)] else []).

(** Two neighbouring numeric labels are consecutive pages. *)
Definition adjacent_ok (labels : list PageArg) : Prop :=
  ∀ (i : nat) x y,
    labels !! i = Some (PNum (Int x)) →
    labels !! S i = Some (PNum (Int y)) →
    y = x + 1.

(** The link after the first one is an ellipsis placeholder. *)
Definition leading_ellipsis (html : list Link) : Prop :=
  text <$> html !! 1%nat = Some PDots.

End Vocabulary.

Section ViewVocabulary.

Import ProcessBehaviorView.

(** A method keeps a property of the world, also when it throws. *)
Definition preserves {A} (I : World → Prop) (m : M A) : Prop :=
  ∀ w, I w → I (snd (m w)).

(** Inputs other than the success of a request. *)
Definition not_success (x : Input) : Prop :=
  match x with
  | Success _ _ => False
  | _ => True
  end.

(** A small page and world to run the methods on. *)
Definition demo_page : Page :=
  {| page_tree := {| Tree.el_classes := ∅; Tree.el_initialized := false;
                     Tree.branches := [] |};
     page_tags := [{| tag_href := "filter:registry"; tag_classes := {["active"]} |}];
     page_loading := 0;
     page_pagination := [];
     page_table := None;
     page_loaded := false;
     page_unloaded := true;
     page_placeholders := {| detail_pid := ""; detail_ppid := ""; detail_name := "" |};
     page_panes := [] |}.

Definition demo_world : World :=
  {| _bar := None; _loader := Some {| loading := false |};
     currentPage := VNum (Int 1); currentPid := VNum (Int 4);
     pagination := [];
     tags := [{| tag_href := "filter:registry"; tag_classes := {["active"]} |}];
     behavior_table := None; loaded_shown := false; unloaded_shown := true;
     placeholders := {| detail_pid := ""; detail_ppid := ""; detail_name := "" |};
     panes := [];
     tree := {| Tree.el_classes := {["open"]}; Tree.el_initialized := true;
                Tree.branches := [] |};
     requests := []; trace := [] |}.

(** A response whose table has three columns and no row. *)
Definition demo_parseHTML (res : string) : option Fragment :=
  Some {| frag_classes := {["table"]}; frag_columns := 3; frag_rows := [] |}.

End ViewVocabulary.

Section MoreVocabulary.

Import PaginationBar.
Import ProcessBehaviorView.

(** The page numbers of the numeric links of a rendered list, in order. *)
Definition page_numbers (html : list Link) : list Z :=
  omap (λ l, match text l with PNum (Int z) => Some z | _ => None end) html.

(** The demo page with one loading element. *)
Definition demo_loading_page : Page :=
  {| page_tree := page_tree demo_page;
     page_tags := page_tags demo_page;
     page_loading := 1;
     page_pagination := [];
     page_table := None;
     page_loaded := false;
     page_unloaded := true;
     page_placeholders := page_placeholders demo_page;
     page_panes := [{["open"]}; ∅] |}.

(** The text is empty or starts with a visible ASCII character (codes 33 to
    126): nothing that [parseInt] would skip before it looks for a sign and
    digits. *)
Definition starts_plain (n : string) : bool :=
  match n with
  | EmptyString => true
  | String c _ => Nat.ltb 32 (nat_of_ascii c) && Nat.ltb (nat_of_ascii c) 127
  end.

(** Does the character occur in the string? *)
Fixpoint contains (c : ascii) (s : string) : bool :=
  match s with
  | EmptyString => false
  | String a s' => Ascii.eqb a c || contains c s'
  end.

(** Inputs that are clicks. *)
Definition is_click (x : Input) : Prop :=
  match x with
  | Success _ _ | Failure _ => False
  | _ => True
  end.

(** The table [renderTable] places for a fragment. *)
Definition placed_table (f : Fragment) : Table :=
  if decide (frag_rows f = [])
  then append_row (NoResultRow (frag_columns f)) (restyle f)
  else restyle f.

(** The embedded record of the demo process. *)
Definition demo_JSON_parse (t : string) : option Parsed :=
  Some (JRecord {| pid := VNum (Int 4); ppid := VNum (Int 1); name := VStr "a.exe" |}).

(** The demo view after a click on process 4 of its tree. *)
Definition demo_loaded_world : World :=
  steps (VNum (Int 7)) ∅ demo_JSON_parse demo_parseHTML
    (new_view demo_loading_page) [ClickLoad (VNum (Int 4)) "{}"].

(** The same after a second click, on process 5: two requests in flight. *)
Definition demo_busy_world : World :=
  steps (VNum (Int 7)) ∅ demo_JSON_parse demo_parseHTML
    (new_view demo_loading_page)
    [ClickLoad (VNum (Int 4)) "{}"; ClickLoad (VNum (Int 5)) "{}"].

End MoreVocabulary.

(** * Properties *)

(** ** PaginationBar *)

Section PaginationBarFacts.

Import PaginationBar.

Lemma page_loop_range config i pageMax html :
  page_loop config i pageMax html =
  html ++ (_page config ∘ PNum ∘ Int <$> page_range i pageMax).
Proof.
  funelim (page_loop config i pageMax html).
  - rewrite H. unfold page_range.
    rewrite (seqZ_cons i) by lia. rewrite fmap_cons, <- app_assoc. simpl.
    replace (Z.succ i) with (i + 1) by lia.
    replace (Z.pred (pageMax + 1 - i)) with (pageMax + 1 - (i + 1)) by lia.
    reflexivity.
  - unfold page_range. rewrite seqZ_nil by lia. simpl. by rewrite app_nil_r.
Qed.

Lemma render_html_args c cp tp d cb :
  render_html (int_config c cp tp d cb) =
  _page (int_config c cp tp d cb) <$> render_args cp tp.
Proof.
  unfold render_html, render_args. cbn [currentPage totalPages int_config
    num_sub num_add num_gt num_lt Math_max Math_min page_for].
  rewrite page_loop_range.
  repeat case_decide; repeat match goal with
    | |- context [?a <? ?b] => destruct (Z.ltb_spec a b); try lia end;
  rewrite ?fmap_app, ?list_fmap_compose; simpl; rewrite <- ?app_assoc; simpl;
  rewrite ?app_nil_r; try reflexivity.
Qed.

Lemma text_page config n : text (_page config n) = n.
Proof. reflexivity. Qed.

Lemma text_page_fmap config (args : list PageArg) : text <$> (_page config <$> args) = args.
Proof. induction args as [|a args IH]; [reflexivity|]. rewrite !fmap_cons, IH. reflexivity. Qed.

Lemma active_page c cp tp d cb n :
  active (_page (int_config c cp tp d cb) n) = true ↔ n = PNum (Int cp).
Proof.
  destruct n as [[|z]|]; simpl; split; try discriminate.
  - intros ->%Z.eqb_eq. reflexivity.
  - intros [= ->]. apply Z.eqb_refl.
Qed.

Lemma filter_fmap_iff {A B} (f : A → B) (P : B → Prop) (Q : A → Prop)
    `{!∀ x, Decision (P x)} `{!∀ x, Decision (Q x)} (l : list A) :
  (∀ a, P (f a) ↔ Q a) → filter P (f <$> l) = f <$> filter Q l.
Proof.
  intros HPQ. induction l as [|a l IH]; [reflexivity|].
  rewrite fmap_cons, !filter_cons, IH.
  destruct (decide (P (f a))) as [HP|HP], (decide (Q a)) as [HQ|HQ];
    try reflexivity; exfalso; apply HPQ in HP || apply HPQ in HQ; tauto.
Qed.

(** Among the pages [lo .. lo+n-1], page [x] occurs once if it is in range. *)
Lemma filter_range_eq (n : nat) lo x :
  filter (λ a, a = PNum (Int x)) (PNum ∘ Int <$> seqZ lo (Z.of_nat n)) =
  if decide (lo ≤ x < lo + Z.of_nat n) then [PNum (Int x)] else [].
Proof.
  revert lo. induction n as [|n IH]; intros lo.
  - rewrite seqZ_nil by lia. simpl. case_decide; [lia | reflexivity].
  - rewrite seqZ_cons by lia. rewrite fmap_cons, filter_cons.
    replace (Z.pred (Z.of_nat (S n))) with (Z.of_nat n) by lia.
    rewrite IH. simpl.
    destruct (decide (PNum (Int lo) = PNum (Int x))) as [[= ->]|Hne].
    + rewrite decide_False by lia. rewrite decide_True by lia. reflexivity.
    + assert (lo ≠ x) by congruence.
      repeat case_decide; try reflexivity; lia.
Qed.

Lemma filter_range_dots lo n :
  filter (λ a, a = PDots) (PNum ∘ Int <$> seqZ lo n) = [].
Proof.
  induction (seqZ lo n) as [|z l IH]; [reflexivity|].
  rewrite fmap_cons, filter_cons_False; [exact IH | discriminate].
Qed.

Lemma adjacent_nil : adjacent_ok [].
Proof. intros i x y H. discriminate. Qed.

Lemma adjacent_one a : adjacent_ok [a].
Proof. intros [|i] x y _ H; discriminate. Qed.

Lemma adjacent_cons a b l :
  (∀ x y, a = PNum (Int x) → b = PNum (Int y) → y = x + 1) →
  adjacent_ok (b :: l) → adjacent_ok (a :: b :: l).
Proof.
  intros Hab Hl [|i] x y Hi Hj.
  - simpl in *. apply Hab; congruence.
  - apply (Hl i x y); assumption.
Qed.

Lemma adjacent_range (n : nat) lo rest :
  adjacent_ok rest →
  (∀ y r, rest = PNum (Int y) :: r → y = lo + Z.of_nat n) →
  adjacent_ok ((PNum ∘ Int <$> seqZ lo (Z.of_nat n)) ++ rest).
Proof.
  revert lo. induction n as [|n IH]; intros lo Hrest Hhead.
  - rewrite seqZ_nil by lia. exact Hrest.
  - rewrite seqZ_cons by lia.
    replace (Z.pred (Z.of_nat (S n))) with (Z.of_nat n) by lia.
    specialize (IH (Z.succ lo) Hrest).
    assert (Hnext : adjacent_ok ((PNum ∘ Int <$> seqZ (Z.succ lo) (Z.of_nat n)) ++ rest)).
    { apply IH. intros y r Hr. rewrite (Hhead y r Hr). lia. }
    clear IH. rewrite fmap_cons. simpl.
    destruct n as [|n].
    + rewrite seqZ_nil in * by lia. simpl in *.
      destruct rest as [|b rest]; [apply adjacent_one|].
      apply adjacent_cons; [|exact Hnext].
      intros x y [= <-] ->. rewrite (Hhead y rest eq_refl). lia.
    + rewrite seqZ_cons in * by lia. rewrite fmap_cons in *. simpl in *.
      apply adjacent_cons; [|exact Hnext].
      intros x y [= <-] [= <-]. lia.
Qed.

Lemma render_args_adjacent cp tp :
  1 ≤ tp → 1 ≤ cp → adjacent_ok (render_args cp tp).
Proof.
  intros Htp Hcp. unfold render_args, page_range.
  set (trail := if decide (cp + 10 < tp) then _ else _).
  assert (Htrail : adjacent_ok trail ∧ ∀ y r, trail ≠ PNum (Int y) :: r).
  { subst trail. case_decide.
    - split; [|discriminate]. apply adjacent_cons; [discriminate | apply adjacent_one].
    - split; [apply adjacent_nil | discriminate]. }
  destruct Htrail as [Hadj Hhd].
  case_decide as Hlead; simpl.
  - apply adjacent_cons; [discriminate|].
    destruct (Z.min tp (cp + 10) + 1 - Z.max 2 (cp - 10)) as [|p|p] eqn:E.
    + rewrite seqZ_nil by lia. simpl.
      destruct trail as [|b t]; [apply adjacent_one|].
      apply adjacent_cons; [discriminate | exact Hadj].
    + rewrite <- (positive_nat_Z p).
      pose proof (adjacent_range (Pos.to_nat p) (Z.max 2 (cp - 10)) trail Hadj) as Hr.
      destruct (seqZ (Z.max 2 (cp - 10)) (Z.of_nat (Pos.to_nat p))) as [|z zs].
      * simpl in *. destruct trail as [|b t]; [apply adjacent_one|].
        apply adjacent_cons; [discriminate | exact Hadj].
      * apply adjacent_cons; [discriminate|]. apply Hr.
        intros y r ->. exfalso. eapply Hhd. reflexivity.
    + rewrite seqZ_nil by lia. simpl.
      destruct trail as [|b t]; [apply adjacent_one|].
      apply adjacent_cons; [discriminate | exact Hadj].
  - replace (Z.max 2 (cp - 10)) with 2 by lia.
    change (PNum (Int 1) :: (PNum ∘ Int <$> seqZ 2 (Z.min tp (cp + 10) + 1 - 2)) ++ trail)
      with ((PNum ∘ Int <$> 1 :: seqZ (Z.succ 1) (Z.min tp (cp + 10) + 1 - 2)) ++ trail).
    replace (Z.min tp (cp + 10) + 1 - 2) with (Z.pred (Z.min tp (cp + 10))) by lia.
    rewrite <- seqZ_cons by lia.
    rewrite <- (Z2Nat.id (Z.min tp (cp + 10))) by lia.
    apply adjacent_range; [exact Hadj|].
    intros y r ->. exfalso. eapply Hhd. reflexivity.
Qed.

Lemma render_args_active cp tp :
  1 ≤ cp ≤ tp →
  filter (λ a, a = PNum (Int cp)) (render_args cp tp) = [PNum (Int cp)].
Proof.
  intros Hcp. unfold render_args, page_range.
  rewrite !filter_app.
  set (n := Z.min tp (cp + 10) + 1 - Z.max 2 (cp - 10)).
  assert (Hn : 0 ≤ n ∨ cp = 1) by lia.
  assert (Hw : filter (λ a, a = PNum (Int cp))
                 (PNum ∘ Int <$> seqZ (Z.max 2 (cp - 10)) n) =
               if decide (2 ≤ cp) then [PNum (Int cp)] else []).
  { destruct (decide (0 ≤ n)) as [Hpos|Hneg].
    - rewrite <- (Z2Nat.id n) by lia. rewrite filter_range_eq.
      rewrite Z2Nat.id by lia. subst n. repeat case_decide; try reflexivity; lia.
    - rewrite seqZ_nil by lia. rewrite decide_False by lia. reflexivity. }
  rewrite Hw. clear Hw.
  assert (Ht : filter (λ a, a = PNum (Int cp))
                 (if decide (cp + 10 < tp) then [PDots; PNum (Int tp)] else []) = []).
  { case_decide; [|reflexivity].
    rewrite filter_cons_False by discriminate.
    rewrite filter_cons_False; [reflexivity|]. intros [= ->]. lia. }
  rewrite Ht. clear Ht.
  assert (Hl : filter (λ a, a = PNum (Int cp))
                 (if decide (2 < cp - 10) then [PDots] else []) = []).
  { case_decide; [|reflexivity]. rewrite filter_cons_False by discriminate. reflexivity. }
  rewrite Hl. clear Hl. rewrite app_nil_r. simpl.
  rewrite filter_cons. destruct (decide (PNum (Int 1) = PNum (Int cp))) as [[= <-]|Hne].
  - rewrite decide_False by lia. reflexivity.
  - rewrite decide_True; [reflexivity|]. destruct (decide (cp = 1)); [congruence | lia].
Qed.

Lemma render_args_dots cp tp :
  (length (filter (λ a, a = PDots) (render_args cp tp)) ≤ 2)%nat.
Proof.
  unfold render_args, page_range.
  rewrite !filter_app, filter_range_dots, !length_app.
  rewrite filter_cons_False by discriminate.
  repeat case_decide; simpl; lia.
Qed.

End PaginationBarFacts.

Section PaginationBarClaims.

Import PaginationBar.

Lemma elem_of_render_args_1 cp tp : PNum (Int 1) ∈ render_args cp tp.
Proof. unfold render_args. set_solver. Qed.

Lemma elem_of_render_args_last cp tp :
  1 ≤ cp ≤ tp → PNum (Int tp) ∈ render_args cp tp.
Proof.
  intros H. unfold render_args, page_range.
  destruct (decide (cp + 10 < tp)) as [Hlt|Hge].
  - rewrite !elem_of_app. do 3 right. set_solver.
  - destruct (decide (tp = 1)) as [->|Hne]; [set_solver|].
    rewrite !elem_of_app. right; right; left.
    apply (list_elem_of_fmap_2 (PNum ∘ Int)), elem_of_seqZ. lia.
Qed.

(** C1: for [totalPages >= 1] and [1 <= currentPage <= totalPages] the
    rendered list has a link for page 1 and one for [totalPages]; exactly one
    link is active and its label is [currentPage]; at most two links are
    ellipsis placeholders; and two numeric links that are neighbours (no
    ellipsis between them) are consecutive pages. *)
Theorem render_invariants c cp tp d cb :
  1 ≤ tp → 1 ≤ cp ≤ tp →
  let html := render_html (int_config c cp tp d cb) in
  PNum (Int 1) ∈ text <$> html ∧
  PNum (Int tp) ∈ text <$> html ∧
  (∃ l, filter (λ l, active l = true) html = [l] ∧ text l = PNum (Int cp)) ∧
  (length (filter (λ l, text l = PDots) html) ≤ 2)%nat ∧
  adjacent_ok (text <$> html).
Proof.
  intros Htp Hcp html. subst html.
  rewrite render_html_args, text_page_fmap.
  split; [apply elem_of_render_args_1|].
  split; [by apply elem_of_render_args_last|].
  split; [|split].
  - exists (_page (int_config c cp tp d cb) (PNum (Int cp))). split; [|reflexivity].
    rewrite (filter_fmap_iff _ _ (λ a, a = PNum (Int cp))) by apply active_page.
    by rewrite render_args_active.
  - rewrite (filter_fmap_iff _ _ (λ a, a = PDots)) by reflexivity.
    rewrite length_fmap. apply render_args_dots.
  - apply render_args_adjacent; lia.
Qed.

Lemma render_invariants_witness :
  1 ≤ 40 ∧ 1 ≤ 5 ≤ 40 ∧
  let html := render_html (int_config false 5 40 (Int 20) CbDefault) in
  PNum (Int 1) ∈ text <$> html ∧
  PNum (Int 40) ∈ text <$> html ∧
  (∃ l, filter (λ l, active l = true) html = [l] ∧ text l = PNum (Int 5)) ∧
  (length (filter (λ l, text l = PDots) html) ≤ 2)%nat ∧
  adjacent_ok (text <$> html).
Proof.
  split; [lia|]. split; [lia|].
  apply (render_invariants false 5 40 (Int 20) CbDefault); lia.
Defined.

(** C2, as stated, fails on page 12 of 40: eleven pages precede the current
    one, yet the link after the first is page 2, not an ellipsis. *)
Lemma leading_ellipsis_counterexample :
  ¬ (leading_ellipsis (render_html (int_config false 12 40 (Int 20) CbDefault))
     ↔ 10 < 12 - 1).
Proof.
  intros [_ H]. specialize (H ltac:(lia)).
  vm_compute in H. discriminate.
Qed.

(** C2, amended: for a configuration with [currentPage >= 1], the link
    after the first one is an ellipsis exactly when [currentPage - 10 > 2],
    that is when more than eleven pages precede the current page. *)
Theorem leading_ellipsis_iff c cp tp d cb :
  1 ≤ cp →
  leading_ellipsis (render_html (int_config c cp tp d cb)) ↔ 2 < cp - 10.
Proof.
  intros Hcp. unfold leading_ellipsis.
  rewrite render_html_args, <- list_lookup_fmap, text_page_fmap.
  unfold render_args, page_range. simpl.
  destruct (decide (2 < cp - 10)) as [Hlead|Hlead]; simpl.
  - split; [intros _; exact Hlead | reflexivity].
  - split; [|lia]. intros H. exfalso.
    replace (Z.max 2 (cp - 10)) with 2 in H by lia.
    destruct (decide (0 < Z.min tp (cp + 10) + 1 - 2)) as [Hn|Hn].
    + rewrite seqZ_cons in H by lia. discriminate.
    + rewrite seqZ_nil in H by lia. simpl in H.
      rewrite decide_False in H by lia. discriminate.
Qed.

Lemma leading_ellipsis_iff_witness :
  1 ≤ 13 ∧
  (leading_ellipsis (render_html (int_config false 13 40 (Int 20) CbDefault))
   ↔ 2 < 13 - 10).
Proof.
  split; [lia|]. apply (leading_ellipsis_iff false 13 40 (Int 20) CbDefault). lia.
Defined.

(** C3: the window holds the links of the pages [max(2, currentPage-10)] to
    [min(totalPages, currentPage+10)] in order, after the first link and the
    optional leading ellipsis; an ellipsis and the link of the last page
    follow it exactly when more than 10 pages follow the current one.  With
    40 pages on page 1 the labels are 1 to 11, an ellipsis, 40; with 5 pages
    on page 3 they are 1 to 5. *)
Theorem render_window c cp tp d cb :
  let config := int_config c cp tp d cb in
  (∃ lead,
     (lead = [_page config (PNum (Int 1))] ∨
      lead = [_page config (PNum (Int 1)); _page config PDots]) ∧
     render_html config =
       lead
       ++ (_page config ∘ PNum ∘ Int <$>
             page_range (Z.max 2 (cp - 10)) (Z.min tp (cp + 10)))
       ++ (if decide (10 < tp - cp)
           then [_page config PDots; _page config (PNum (Int tp))]
           else [])) ∧
  (∀ z, z ∈ page_range (Z.max 2 (cp - 10)) (Z.min tp (cp + 10)) ↔
        Z.max 2 (cp - 10) ≤ z ≤ Z.min tp (cp + 10)) ∧
  text <$> render_html (int_config c 1 40 d cb) =
    (PNum ∘ Int <$> [1; 2; 3; 4; 5; 6; 7; 8; 9; 10; 11]) ++ [PDots; PNum (Int 40)] ∧
  text <$> render_html (int_config c 3 5 d cb) =
    PNum ∘ Int <$> [1; 2; 3; 4; 5].
Proof.
  intros config. split; [|split; [|split]].
  - subst config. rewrite render_html_args. unfold render_args.
    destruct (decide (2 < cp - 10)) as [Hlead|Hlead].
    + eexists. split; [right; reflexivity|].
      rewrite !fmap_app, <- list_fmap_compose. simpl.
      do 3 f_equal. repeat case_decide; try reflexivity; lia.
    + eexists. split; [left; reflexivity|].
      rewrite !fmap_app, <- list_fmap_compose. simpl.
      do 2 f_equal. repeat case_decide; try reflexivity; lia.
  - intros z. unfold page_range. rewrite elem_of_seqZ. lia.
  - rewrite render_html_args, text_page_fmap. reflexivity.
  - rewrite render_html_args, text_page_fmap. reflexivity.
Qed.

End PaginationBarClaims.

(** *** Page links and clicks *)

Section PaginationBarClicks.

Import PaginationBar.

Lemma digit_prefix_string d : digit_prefix (NilEmpty.string_of_uint d) = d.
Proof. induction d as [|d IH|d IH|d IH|d IH|d IH|d IH|d IH|d IH|d IH|d IH]; cbn; rewrite ?IH; reflexivity. Qed.

Lemma parse_unsigned_string d :
  d ≠ Nil → parse_unsigned (NilEmpty.string_of_uint d) = Some (Z.of_uint d).
Proof.
  intros Hd. unfold parse_unsigned. rewrite digit_prefix_string.
  destruct d; congruence.
Qed.

Lemma parseInt_string_of_uint d :
  d ≠ Nil → parseInt (NilEmpty.string_of_uint d) = Int (Z.of_uint d).
Proof.
  intros Hd. pose proof (parse_unsigned_string d Hd) as Hp.
  destruct d; try congruence; unfold parseInt;
    cbn [NilEmpty.string_of_uint] in *; rewrite Hp; reflexivity.
Qed.

Lemma NilZero_string_of_uint_nonnil d :
  d ≠ Nil → NilZero.string_of_uint d = NilEmpty.string_of_uint d.
Proof. destruct d; [congruence | reflexivity..]. Qed.

(** [parseInt] reads back the decimal text of an integer. *)
Lemma parseInt_num_to_string n : parseInt (num_to_string n) = Int n.
Proof.
  unfold num_to_string. destruct n as [|p|p]; [reflexivity| |].
  - cbn [Z.to_int NilZero.string_of_int].
    pose proof (DecimalPos.Unsigned.to_uint_nonnil p) as Hp.
    rewrite NilZero_string_of_uint_nonnil, parseInt_string_of_uint by exact Hp.
    f_equal. exact (DecimalZ.of_to (Z.pos p)).
  - cbn [Z.to_int NilZero.string_of_int].
    pose proof (DecimalPos.Unsigned.to_uint_nonnil p) as Hp.
    rewrite NilZero_string_of_uint_nonnil by exact Hp.
    unfold parseInt. rewrite parse_unsigned_string by exact Hp.
    cbn [fmap option_fmap option_map]. f_equal.
    exact (DecimalZ.of_to (Z.neg p)).
Qed.

Lemma substring_all s (m : nat) :
  (String.length s ≤ m)%nat → String.substring 0 m s = s.
Proof.
  revert m. induction s as [|c s IH]; intros [|m] Hm; simpl in *;
    try reflexivity; try lia.
  rewrite IH by lia. reflexivity.
Qed.

Lemma remove_first_page s : remove_first "page:" ("page:" +:+ s) = s.
Proof.
  change ("page:" +:+ s) with (String "p" (String "a" (String "g" (String "e" (String ":" s))))).
  cbn. destruct (String.prefix "" s) eqn:E.
  - apply substring_all. lia.
  - destruct s; discriminate.
Qed.

(** Every rendered link is made by [_page], on a number or on the ellipsis. *)
Lemma render_html_made config :
  Forall (λ l, ∃ n, l = _page config n ∧ n ≠ PNum NaN) (render_html config).
Proof.
  assert (Hloop : ∀ i pageMax html,
    Forall (λ l, ∃ n, l = _page config n ∧ n ≠ PNum NaN) html →
    Forall (λ l, ∃ n, l = _page config n ∧ n ≠ PNum NaN)
      (page_loop config i pageMax html)).
  { intros i pageMax html H. rewrite page_loop_range.
    apply Forall_app. split; [exact H|].
    apply Forall_fmap, Forall_true. intros z. by eexists. }
  assert (Hone : ∀ n, n ≠ PNum NaN →
    Forall (λ l, ∃ n, l = _page config n ∧ n ≠ PNum NaN) [_page config n]).
  { intros n Hn. apply Forall_singleton. by exists n. }
  assert (Hfor : ∀ lo hi html,
    Forall (λ l, ∃ n, l = _page config n ∧ n ≠ PNum NaN) html →
    Forall (λ l, ∃ n, l = _page config n ∧ n ≠ PNum NaN)
      (page_for config lo hi html)).
  { intros [|lo] [|hi] html H; simpl; auto. }
  unfold render_html.
  destruct (num_lt _ (totalPages config)) eqn:Hlt.
  - destruct (totalPages config) as [|tp] eqn:Htp.
    { destruct (currentPage config); discriminate. }
    rewrite !Forall_app. split; [split|]; [|by apply Hone..].
    apply Hfor. destruct (num_gt _ _); [apply Forall_app; split|]; by apply Hone.
  - apply Hfor. destruct (num_gt _ _); [apply Forall_app; split|]; by apply Hone.
Qed.

(** C7: in a bar rendered into its container, a link has an [href] exactly
    when its label is a number, so a click on an ellipsis does nothing; a
    click on the link labelled [n] parses the label into [currentPage]
    (which becomes [n], the rest of the configuration staying as it was),
    renders the bar again with that page, so that the link of page [n] is
    the active one, and ends by calling the configured [onPaginate] with the
    label, whose integer value is [n]. *)
Theorem click_page_link (b : Bar) (children : list Link) :
  container (config b) = true →
  let '(b1, children1, _) := render b children in
  children1 = render_html (config b) ∧
  (∀ l, l ∈ children1 → is_Some (href l) ↔ ∃ n, text l = PNum (Int n)) ∧
  (∀ i l, children1 !! i = Some l → text l = PDots →
          click i b1 children1 = None) ∧
  (∀ i l n, children1 !! i = Some l → text l = PNum (Int n) →
     ∃ b2,
       click i b1 children1 =
         Some (b2, render_html (config b2),
               (onPaginate (config b), VStr (num_to_string n))) ∧
       parseInt (num_to_string n) = Int n ∧
       config b2 = config (set_page (Int n) b) ∧
       currentPage (config b2) = Int n ∧
       config b2 =
         {| container := container (config b);
            currentPage := Int n;
            totalPages := totalPages (config b);
            display := display (config b);
            onPaginate := onPaginate (config b) |} ∧
       dollar b2 = true ∧
       (∀ l', l' ∈ render_html (config b2) →
              active l' = true ↔ text l' = PNum (Int n))).
Proof.
  destruct b as [[c cp tp d cb] dl]. cbn [config container]. intros ->.
  unfold render. cbn [config container].
  set (cfg := {| container := true; currentPage := cp; totalPages := tp;
                 display := d; onPaginate := cb |}).
  pose proof (render_html_made cfg) as Hmade.
  rewrite Forall_forall in Hmade.
  split; [reflexivity|]. split; [|split].
  - intros l Hl. destruct (Hmade l Hl) as (a & -> & Ha).
    destruct a as [[|z]|]; simpl; [congruence| |].
    + split; [by eexists | by eauto].
    + split; [intros [? [=]] | intros [? [=]]].
  - intros i l Hi Ht. unfold click. cbn [dollar bind]. rewrite Hi.
    destruct (Hmade l) as (a & -> & Ha); [by eapply list_elem_of_lookup_2|].
    simpl in Ht. subst a. reflexivity.
  - intros i l n Hi Ht. unfold click. cbn [dollar bind]. rewrite Hi.
    destruct (Hmade l) as (a & -> & Ha); [by eapply list_elem_of_lookup_2|].
    simpl in Ht. subst a. cbn [href _page isNaN negb arg_to_string to_string].
    rewrite remove_first_page. unfold goto, render.
    rewrite parseInt_num_to_string. subst cfg.
    exists {| config := {| container := true; currentPage := Int n; totalPages := tp;
                           display := d; onPaginate := cb |};
              dollar := true |}.
    split; [reflexivity|]. do 5 (split; [reflexivity|]).
    intros l' Hl'. cbn [config] in Hl'.
    pose proof (render_html_made
      {| container := true; currentPage := Int n; totalPages := tp;
         display := d; onPaginate := cb |}) as Hmade'.
    rewrite Forall_forall in Hmade'.
    destruct (Hmade' l' Hl') as (a & -> & Ha').
    cbn [text _page active currentPage].
    destruct a as [[|z]|]; cbn; [congruence| |split; discriminate].
    rewrite Z.eqb_eq. split; [by intros -> | by intros [= ->]].
Qed.

Lemma click_page_link_witness :
  let b := {| config := int_config true 1 40 (Int 20) CbDefault; dollar := false |} in
  container (config b) = true ∧
  let '(b1, children1, _) := render b [] in
  children1 = render_html (config b) ∧
  (∀ l, l ∈ children1 → is_Some (href l) ↔ ∃ n, text l = PNum (Int n)) ∧
  (∀ i l, children1 !! i = Some l → text l = PDots →
          click i b1 children1 = None) ∧
  (∀ i l n, children1 !! i = Some l → text l = PNum (Int n) →
     ∃ b2,
       click i b1 children1 =
         Some (b2, render_html (config b2),
               (onPaginate (config b), VStr (num_to_string n))) ∧
       parseInt (num_to_string n) = Int n ∧
       config b2 = config (set_page (Int n) b) ∧
       currentPage (config b2) = Int n ∧
       config b2 =
         {| container := container (config b);
            currentPage := Int n;
            totalPages := totalPages (config b);
            display := display (config b);
            onPaginate := onPaginate (config b) |} ∧
       dollar b2 = true ∧
       (∀ l', l' ∈ render_html (config b2) →
              active l' = true ↔ text l' = PNum (Int n))).
Proof.
  intros b. split; [reflexivity|].
  exact (click_page_link b [] eq_refl).
Defined.

End PaginationBarClicks.

(** ** Tree *)

Section TreeClaims.

Import Tree.

Lemma toggleClass_twice c (cs : gset string) :
  toggleClass c (toggleClass c cs) = cs.
Proof.
  unfold toggleClass. destruct (decide (c ∈ cs)) as [Hin|Hout].
  - rewrite decide_False by set_solver.
    apply set_eq. intros x. destruct (decide (x = c)); set_solver.
  - rewrite decide_True by set_solver. set_solver.
Qed.

Lemma toggle_nested_twice (l : list (gset string)) :
  toggleClass "open" <$> (toggleClass "open" <$> l) = l.
Proof.
  induction l as [|cs l IH]; [reflexivity|].
  rewrite !fmap_cons, toggleClass_twice, IH. reflexivity.
Qed.

Lemma elem_of_toggleClass_to c state (cs : gset string) x :
  x ∈ toggleClass_to c state cs ↔ (x = c ∧ state = true) ∨ (x ≠ c ∧ x ∈ cs)
                                    ∨ (x ∈ cs ∧ state = true).
Proof.
  unfold toggleClass_to. destruct state; destruct (decide (x = c)); set_solver.
Qed.

(** C8, as stated, fails on a branch whose nested list is open while its
    toggle control does not carry [is-open]: after two toggles the list is
    open again, but the control now carries [is-open]. *)
Lemma toggleBranch_twice_counterexample :
  let b := {| toggle := ∅; nested := [{["open"]}] |} in
  ¬ (nested (toggleBranch (toggleBranch b)) = nested b ∧
     ("is-open" ∈ toggle (toggleBranch (toggleBranch b)) ↔ "is-open" ∈ toggle b)).
Proof.
  intros b [_ [H _]].
  assert (Hin : "is-open" ∈ toggle (toggleBranch (toggleBranch b))).
  { apply elem_of_toggleClass_to. left. split; reflexivity. }
  apply H in Hin. subst b. simpl in Hin. set_solver.
Qed.

(** C8, amended: two toggles in a row give every nested list its original
    classes back and leave the other classes of the toggle control alone;
    the control ends with [is-open] exactly when a nested list was open at
    the start, so its classes are the original ones exactly when [is-open]
    agreed with the lists' [open] class to begin with. *)
Theorem toggleBranch_twice (b : Branch) :
  let b' := toggleBranch (toggleBranch b) in
  nested b' = nested b ∧
  ("is-open" ∈ toggle b' ↔ hasClass "open" (nested b) = true) ∧
  (∀ c, c ≠ "is-open" → c ∈ toggle b' ↔ c ∈ toggle b) ∧
  (toggle b' = toggle b ↔
     ("is-open" ∈ toggle b ↔ hasClass "open" (nested b) = true)).
Proof.
  intros b'. subst b'. unfold toggleBranch at 1. cbn [nested toggle].
  unfold toggleBranch. cbn [nested toggle].
  rewrite toggle_nested_twice.
  set (s1 := hasClass "open" (toggleClass "open" <$> nested b)).
  set (s := hasClass "open" (nested b)).
  assert (Hmem : ∀ x, x ∈ toggleClass_to "is-open" s (toggleClass_to "is-open" s1 (toggle b))
                      ↔ (x = "is-open" ∧ s = true) ∨ (x ≠ "is-open" ∧ x ∈ toggle b)).
  { intros x. rewrite !elem_of_toggleClass_to.
    destruct s, s1, (decide (x = "is-open")); naive_solver. }
  split; [reflexivity|]. split; [|split].
  - rewrite Hmem. naive_solver.
  - intros c Hc. rewrite Hmem. naive_solver.
  - split.
    + intros Heq. rewrite <- Heq, Hmem. naive_solver.
    + intros Hsync. apply set_eq. intros x. rewrite Hmem.
      destruct (decide (x = "is-open")) as [->|Hne]; naive_solver.
Qed.

End TreeClaims.

(** ** ProcessBehaviorView *)

Section ViewInvariants.

Import ProcessBehaviorView.

Variable task_id : JsVal.
Variable PROCESS_TREE_PAGINATION_INFO : gmap string Z.
Variable JSON_parse : string -> option Parsed.
Variable parseHTML : string -> option Fragment.

Lemma preserves_ret {A} I (a : A) : preserves I (ret a).
Proof. intros w Hw. exact Hw. Qed.

Lemma preserves_throw {A} I e : preserves I (@throw A e).
Proof. intros w Hw. exact Hw. Qed.

Lemma preserves_get I : preserves I get.
Proof. intros w Hw. exact Hw. Qed.

Lemma preserves_modify I f : (∀ w, I w → I (f w)) → preserves I (modify f).
Proof. intros Hf w Hw. apply Hf, Hw. Qed.

Lemma preserves_bind {A B} I (m : M A) (k : A → M B) :
  preserves I m → (∀ a, preserves I (k a)) → preserves I (bind m k).
Proof.
  intros Hm Hk w Hw. unfold bind. specialize (Hm w Hw).
  destruct (m w) as [[a|e] w']; simpl in *; [by apply Hk | exact Hm].
Qed.

Ltac pres :=
  repeat (cbv zeta;
    match goal with
    | |- preserves _ (ret _) => apply preserves_ret
    | |- preserves _ (throw _) => apply preserves_throw
    | |- preserves _ get => apply preserves_get
    | |- preserves _ (bind _ _) => apply preserves_bind; [|intros ?]
    | |- preserves _ (modify _) => apply preserves_modify; intros ? ?
    | |- preserves _ (if ?b then _ else _) => destruct b
    | |- preserves _ (match ?x with _ => _ end) => destruct x
    end).

(** Properties of the loader and the bar that starting the loader, building
    a bar and clicking a page link keep. *)
Variable Q : option Loader → option PaginationBar.Bar → Prop.

Hypothesis Q_start : ∀ l b, Q (Some l) b → Q (Some {| loading := true |}) b.

Hypothesis Q_new : ∀ lo b o children,
  PaginationBar.opt_container o = Some true →
  Q lo b → Q lo (Some (PaginationBar.new_bar o children).1).

Hypothesis Q_click : ∀ lo b i children b' children' c,
  PaginationBar.click i b children = Some (b', children', c) →
  Q lo (Some b) → Q lo (Some b').

Let I (w : World) : Prop := Q (_loader w) (_bar w).

Lemma loader_start_preserves : preserves I loader_start.
Proof.
  intros w Hw. unfold loader_start, I in *.
  destruct (_loader w) as [l|] eqn:E; simpl; [|by rewrite E].
  eapply Q_start. exact Hw.
Qed.

Lemma loadChunk_preserves pid filter : preserves I (loadChunk task_id pid filter).
Proof.
  unfold loadChunk, http_get. pres; try exact loader_start_preserves; exact H.
Qed.

Lemma renderTable_preserves res : preserves I (renderTable parseHTML res).
Proof. unfold renderTable. pres; exact H. Qed.

Lemma bar_destroy_preserves b : preserves I (bar_destroy b).
Proof.
  intros w Hw. unfold bar_destroy.
  destruct (PaginationBar.destroy b (pagination w)); simpl; exact Hw.
Qed.

Lemma renderBar_preserves pid current :
  preserves I (renderBar PROCESS_TREE_PAGINATION_INFO pid current).
Proof.
  unfold renderBar. pres; try apply bar_destroy_preserves; try exact H.
  all: unfold I in *;
    match goal with
    | Hw : Q (_loader ?w) (_bar ?w) |- context [PaginationBar.new_bar ?o ?c] =>
        pose proof (Q_new (_loader w) (_bar w) o c eq_refl Hw) as Hn;
        destruct (PaginationBar.new_bar o c) as [b' children']; exact Hn
    end.
Qed.

Lemma populate_preserves el :
  preserves I (populate PROCESS_TREE_PAGINATION_INFO JSON_parse el).
Proof.
  unfold populate, parseProcessData.
  pres; try apply renderBar_preserves; exact H.
Qed.

Lemma call_preserves cb page : preserves I (call task_id cb page).
Proof. unfold call. pres; try apply loadChunk_preserves; exact H. Qed.

Lemma reset_filter_preserves : preserves I (reset_filter task_id).
Proof. unfold reset_filter. pres; try apply loadChunk_preserves; exact H. Qed.

Lemma on_page_preserves i : preserves I (on_page task_id i).
Proof.
  intros w Hw. unfold on_page.
  change (I (snd (match _bar w with
                  | Some b =>
                      match PaginationBar.click i b (pagination w) with
                      | Some (b', children, (cb, arg)) =>
                          (modify (fun w =>
                             let w := set_bar (Some b') (set_pagination children w) in
                             if PaginationBar.container (PaginationBar.config b')
                             then log (EvBarRender children) w else w) ;;;
                           modify (log (EvOnPaginate arg)) ;;;
                           call task_id cb arg)
                      | None => ret tt
                      end
                  | None => ret tt
                  end w))).
  destruct (_bar w) as [b|] eqn:Hb; [|exact Hw].
  destruct (PaginationBar.click i b (pagination w))
    as [[[b' children'] [cb arg]]|] eqn:Hclick; [|exact Hw].
  assert (Hb' : Q (_loader w) (Some b')).
  { eapply Q_click; [exact Hclick|]. rewrite <- Hb. exact Hw. }
  assert (Hrest : preserves I
            (modify (log (EvOnPaginate arg)) ;;; call task_id cb arg)).
  { pres; [exact H | apply call_preserves]. }
  apply (Hrest
    (let w1 := set_bar (Some b') (set_pagination children' w) in
     if PaginationBar.container (PaginationBar.config b')
     then log (EvBarRender children') w1 else w1)).
  unfold I. destruct (PaginationBar.container (PaginationBar.config b')); exact Hb'.
Qed.

Lemma on_load_preserves load script :
  preserves I (on_load task_id PROCESS_TREE_PAGINATION_INFO JSON_parse load script).
Proof.
  unfold on_load.
  pres; try apply loadChunk_preserves; try apply populate_preserves; exact H.
Qed.

Lemma on_filter_preserves i t : preserves I (on_filter task_id i t).
Proof.
  unfold on_filter.
  pres; try apply loadChunk_preserves; try apply bar_destroy_preserves; exact H.
Qed.

Lemma on_header_preserves ancestors : preserves I (on_header ancestors).
Proof. unfold on_header. pres. exact H. Qed.

(** Every handler but the success callback keeps the property. *)
Lemma handler_preserves x :
  not_success x →
  preserves I (handler task_id PROCESS_TREE_PAGINATION_INFO JSON_parse parseHTML x).
Proof.
  destruct x; simpl; intros Hx; try contradiction.
  - pres. exact H.
  - apply on_header_preserves.
  - apply on_load_preserves.
  - pres; apply on_filter_preserves.
  - apply on_page_preserves.
  - pres; apply reset_filter_preserves.
  - pres. exact H.
Qed.

(** The success callback keeps it too when stopping the loader does. *)
Lemma on_success_preserves res :
  (∀ l b, Q (Some l) b → Q (Some {| loading := false |}) b) →
  preserves I (on_success parseHTML res).
Proof.
  intros Q_stop. unfold on_success. pres; [|apply renderTable_preserves].
  intros w Hw. unfold loader_stop, I in *.
  destruct (_loader w) as [l|] eqn:E; simpl; [|by rewrite E].
  eapply Q_stop. exact Hw.
Qed.

Lemma step_preserves w x :
  not_success x → I w →
  I (step task_id PROCESS_TREE_PAGINATION_INFO JSON_parse parseHTML w x).
Proof. intros Hx Hw. by apply handler_preserves. Qed.

Lemma step_preserves_any w x :
  (∀ l b, Q (Some l) b → Q (Some {| loading := false |}) b) →
  I w → I (step task_id PROCESS_TREE_PAGINATION_INFO JSON_parse parseHTML w x).
Proof.
  intros Q_stop Hw. destruct x;
    try (by apply step_preserves).
  unfold step, run. simpl. revert w Hw.
  change (preserves I
    (w <- get ;;
     match requests w !! i with
     | Some _ =>
         modify (fun w => set_requests (delete i (requests w)) w) ;;;
         on_success parseHTML res
     | None => ret tt
     end)).
  pres; [exact H | by apply on_success_preserves].
Qed.

Lemma steps_preserves xs w :
  Forall not_success xs → I w →
  I (steps task_id PROCESS_TREE_PAGINATION_INFO JSON_parse parseHTML w xs).
Proof.
  revert w. induction xs as [|x xs IH]; intros w Hxs Hw; [exact Hw|].
  inversion_clear Hxs. simpl. apply IH; [assumption|]. by apply step_preserves.
Qed.

Lemma steps_preserves_any xs w :
  (∀ l b, Q (Some l) b → Q (Some {| loading := false |}) b) →
  I w → I (steps task_id PROCESS_TREE_PAGINATION_INFO JSON_parse parseHTML w xs).
Proof.
  intros Q_stop. revert w. induction xs as [|x xs IH]; intros w Hw; [exact Hw|].
  simpl. apply IH. by apply step_preserves_any.
Qed.

End ViewInvariants.

Section ViewClaims.

Import ProcessBehaviorView.

Variable task_id : JsVal.
Variable PROCESS_TREE_PAGINATION_INFO : gmap string Z.
Variable JSON_parse : string -> option Parsed.
Variable parseHTML : string -> option Fragment.

Let step := step task_id PROCESS_TREE_PAGINATION_INFO JSON_parse parseHTML.
Let steps := steps task_id PROCESS_TREE_PAGINATION_INFO JSON_parse parseHTML.

(** Both urls start with a slash, so [url.length] is never zero. *)
Lemma url_nonempty pid page filter :
  negb (Nat.eqb (String.length (chunk_url task_id pid page)) 0) = true ∧
  negb (Nat.eqb (String.length (filtered_url task_id pid filter)) 0) = true.
Proof. split; reflexivity. Qed.

Lemma bind_get {B} (k : World → M B) w : bind get k w = k w w.
Proof. reflexivity. Qed.

Lemma bind_modify {B} f (k : unit → M B) w : bind (modify f) k w = k tt (f w).
Proof. reflexivity. Qed.

Lemma bind_ok {A B} (m : M A) (k : A → M B) w a w' :
  m w = (Ok a, w') → bind m k w = k a w'.
Proof. intros H. unfold bind. by rewrite H. Qed.

(** What [loadChunk] does on a view that has its loader. *)
Lemma loadChunk_with_loader pid filter w l :
  _loader w = Some l →
  let url := if negb (truthy filter)
             then chunk_url task_id pid (currentPage w)
             else filtered_url task_id pid filter in
  loadChunk task_id pid filter w =
    (Ok tt,
     log (EvGet url)
       (set_requests (requests w ++ [url])
          (log EvLoaderStart
             (set_loader (Some {| loading := true |})
                (log (EvSetCurrentPid pid) (set_currentPid pid w)))))).
Proof.
  intros Hl url. unfold loadChunk, bind, modify, get, http_get, loader_start.
  cbn [currentPage set_currentPid log _loader]. fold url.
  assert (Hurl : negb (Nat.eqb (String.length url) 0) = true).
  { subst url. destruct (negb (truthy filter)); reflexivity. }
  rewrite Hurl. cbn [_loader log set_currentPid]. rewrite Hl. reflexivity.
Qed.


(** A click on a page link of the view's bar: the bar is rendered on the new
    page, whose link is then the active one; then [onPaginate] runs, which
    records the page and loads its chunk. *)
Lemma on_page_order w b i l n pid lo :
  _bar w = Some b →
  PaginationBar.dollar b = true →
  PaginationBar.container (PaginationBar.config b) = true →
  PaginationBar.onPaginate (PaginationBar.config b) = PaginationBar.CbLoadPage pid →
  pagination w !! i = Some l →
  PaginationBar.href l = Some ("page:" +:+ num_to_string n) →
  _loader w = Some lo →
  let w' := step w (ClickPage i) in
  let page := VStr (num_to_string n) in
  let b' := {| PaginationBar.config :=
                 {| PaginationBar.container := true;
                    PaginationBar.currentPage := Int n;
                    PaginationBar.totalPages :=
                      PaginationBar.totalPages (PaginationBar.config b);
                    PaginationBar.display :=
                      PaginationBar.display (PaginationBar.config b);
                    PaginationBar.onPaginate := PaginationBar.CbLoadPage pid |};
               PaginationBar.dollar := true |} in
  _bar w' = Some b' ∧
  PaginationBar.currentPage (PaginationBar.config b') = Int n ∧
  (∀ l', l' ∈ pagination w' →
         PaginationBar.active l' = true ↔
         PaginationBar.text l' = PaginationBar.PNum (Int n)) ∧
  pagination w' = PaginationBar.render_html (PaginationBar.config b') ∧
  currentPage w' = page ∧
  trace w' = trace w ++
    [EvBarRender (PaginationBar.render_html (PaginationBar.config b'));
     EvOnPaginate page; EvSetCurrentPage page; EvSetCurrentPid pid;
     EvLoaderStart; EvGet (chunk_url task_id pid page)].
Proof.
  intros Hb Hd Hc Hcb Hi Hh Hlo w' page b'. subst w'.
  unfold step, ProcessBehaviorView.step, run, handler, on_page.
  rewrite bind_get, Hb. unfold PaginationBar.click. rewrite Hd, Hi, Hh.
  rewrite remove_first_page. unfold PaginationBar.goto, PaginationBar.render.
  rewrite parseInt_num_to_string.
  destruct b as [[c cp tp d cb] dl]. cbn in Hc, Hcb, Hd. subst c cb dl.
  cbn [PaginationBar.set_page PaginationBar.config PaginationBar.container
       PaginationBar.bind PaginationBar.onPaginate PaginationBar.dollar
       PaginationBar.totalPages PaginationBar.display PaginationBar.currentPage].
  rewrite !bind_modify. unfold call. rewrite bind_modify.
  rewrite (loadChunk_with_loader _ _ _ lo) by exact Hlo.
  cbn. rewrite <- !app_assoc.
  split; [reflexivity|]. split; [reflexivity|].
  split; [|repeat split; reflexivity].
  intros l' Hl'.
  pose proof (render_html_made
    {| PaginationBar.container := true; PaginationBar.currentPage := Int n;
       PaginationBar.totalPages := tp; PaginationBar.display := d;
       PaginationBar.onPaginate := PaginationBar.CbLoadPage pid |}) as Hmade.
  rewrite Forall_forall in Hmade.
  destruct (Hmade l' Hl') as (a & -> & Ha).
  cbn [PaginationBar.text PaginationBar._page PaginationBar.active
       PaginationBar.currentPage].
  destruct a as [[|z]|]; cbn; [congruence| |split; discriminate].
  rewrite Z.eqb_eq. split; [by intros -> | by intros [= ->]].
Qed.

(** *** The three properties kept by the handlers *)

Lemma new_bar_dollar o children :
  PaginationBar.opt_container o = Some true →
  PaginationBar.dollar (PaginationBar.new_bar o children).1 = true.
Proof.
  intros Ho. unfold PaginationBar.new_bar, PaginationBar.render, PaginationBar.extend.
  cbn [PaginationBar.config PaginationBar.container]. rewrite Ho. reflexivity.
Qed.

Lemma click_dollar i b children b' children' c :
  PaginationBar.click i b children = Some (b', children', c) →
  PaginationBar.dollar b' = true.
Proof.
  unfold PaginationBar.click. destruct (PaginationBar.dollar b) eqn:Hd; [|discriminate].
  destruct (children !! i) as [l|]; [|discriminate].
  destruct (PaginationBar.href l) as [h|]; [|discriminate].
  unfold PaginationBar.goto, PaginationBar.render.
  cbn [PaginationBar.set_page PaginationBar.config PaginationBar.container].
  destruct (PaginationBar.container (PaginationBar.config b)); intros [= <- _ _];
    [reflexivity | exact Hd].
Qed.

(** An existing bar of the view has been bound to its container. *)
Lemma reachable_bar_bound p xs b :
  _bar (steps (new_view p) xs) = Some b → PaginationBar.dollar b = true.
Proof.
  pose proof (steps_preserves_any task_id PROCESS_TREE_PAGINATION_INFO JSON_parse
    parseHTML (λ _ ob, ∀ b, ob = Some b → PaginationBar.dollar b = true)) as H.
  cbv beta in H. intros Hb. eapply H; try exact Hb; clear H Hb.
  - auto.
  - intros lo ob o children Ho _ b' [= <-]. by apply new_bar_dollar.
  - intros lo b0 i children b' children' c Hc _ b'' [= <-]. by eapply click_dollar.
  - auto.
  - discriminate.
Qed.

(** A view built without a loading element never gets a loader. *)
Lemma reachable_without_loader p xs :
  page_loading p = 0%nat → _loader (steps (new_view p) xs) = None.
Proof.
  intros Hp.
  apply (steps_preserves_any task_id PROCESS_TREE_PAGINATION_INFO JSON_parse
    parseHTML (λ lo _, lo = None)); try discriminate; auto.
  unfold new_view. cbn [_loader]. rewrite Hp. reflexivity.
Qed.

(** A running loader keeps running as long as no request succeeds. *)
Lemma loading_until_success w xs :
  Forall not_success xs →
  _loader w = Some {| loading := true |} →
  _loader (steps w xs) = Some {| loading := true |}.
Proof.
  intros Hxs Hw.
  apply (steps_preserves task_id PROCESS_TREE_PAGINATION_INFO JSON_parse
    parseHTML (λ lo _, lo = Some {| loading := true |})); auto.
Qed.

(** C10: a view built on a page without a loading element has no loader,
    and in every state it can reach each [loadChunk] call records the pid,
    then throws on [this._loader.start()] (the url is never empty) without
    issuing a request. *)
Theorem loadChunk_without_loader (p : Page) (xs : list Input) (pid filter : JsVal) :
  page_loading p = 0%nat →
  _loader (new_view p) = None ∧
  let w := steps (new_view p) xs in
  let r := loadChunk task_id pid filter w in
  fst r = Throw TypeError ∧
  requests (snd r) = requests w ∧
  currentPid (snd r) = pid ∧
  trace (snd r) = trace w ++ [EvSetCurrentPid pid].
Proof.
  intros Hp. split.
  { unfold new_view. cbn [_loader]. rewrite Hp. reflexivity. }
  intros w r. pose proof (reachable_without_loader p xs Hp) as Hl. fold w in Hl.
  subst r. unfold loadChunk, bind, modify, get, http_get, loader_start.
  cbn [currentPage set_currentPid log _loader].
  set (url := if negb (truthy filter) then _ else _).
  assert (Hurl : negb (Nat.eqb (String.length url) 0) = true).
  { subst url. destruct (negb (truthy filter)); reflexivity. }
  rewrite Hurl. cbn [_loader log set_currentPid]. rewrite Hl. cbn. auto.
Qed.

(** C6: [loadChunk] starts the loader before it issues the request; from
    then on the loader runs through every sequence of clicks and failed
    requests, and it is the success callback of a request that stops it. *)
Theorem loader_stops_only_on_success
    (w : World) (l : Loader) (pid filter : JsVal) (xs : list Input) :
  _loader w = Some l → Forall not_success xs →
  let w1 := run (loadChunk task_id pid filter) w in
  (∃ url, trace w1 = trace w ++ [EvSetCurrentPid pid; EvLoaderStart; EvGet url] ∧
          requests w1 = requests w ++ [url]) ∧
  _loader w1 = Some {| loading := true |} ∧
  _loader (steps w1 xs) = Some {| loading := true |} ∧
  (∀ i res, is_Some (requests w1 !! i) →
     _loader (step w1 (Success i res)) = Some {| loading := false |}).
Proof.
  intros Hl Hxs w1. subst w1. unfold run.
  rewrite (loadChunk_with_loader _ _ w l Hl). cbn [snd].
  set (url := if negb (truthy filter) then _ else _).
  split; [|split; [|split]].
  - exists url. cbn. rewrite <- !app_assoc. split; reflexivity.
  - reflexivity.
  - apply loading_until_success; [exact Hxs | reflexivity].
  - intros i res [u Hu]. unfold step, ProcessBehaviorView.step, run, handler.
    unfold bind at 1. unfold get at 1. rewrite Hu.
    unfold on_success, renderTable, bind, modify, loader_stop.
    cbn [_loader set_requests log set_loader].
    destruct (parseHTML res) as [f|]; cbn;
      [destruct (Nat.eqb (length (frag_rows f)) 0)|]; reflexivity.
Qed.

Lemma data_rows_no_button (l : list string) :
  existsb (λ r, match r with NoResultRow _ => true | _ => false end)
    (DataRow <$> l) = false.
Proof. induction l as [|r rs IH]; [reflexivity | exact IH]. Qed.

(** C5: a fragment with no body row is placed with one added "No results"
    row spanning its columns, whose button is then in the page; a fragment
    with rows is placed as it is, with no such row.  With [currentPid] set,
    a click on the button removes [active] from the tag links and loads the
    chunk of [currentPid] again without a filter; otherwise the click does
    nothing. *)
Theorem renderTable_no_results (res : string) (f : Fragment) (w : World) (l : Loader) :
  parseHTML res = Some f → _loader w = Some l →
  let w1 := run (renderTable parseHTML res) w in
  let w2 := step w1 ClickReset in
  let url := "/analysis/chunk/" +:+ to_string task_id +:+ "/"
               +:+ to_string (currentPid w) +:+ "/" +:+ to_string (currentPage w) in
  (∃ t, behavior_table w1 = Some t ∧
        rows t = (DataRow <$> frag_rows f)
                 ++ (if decide (frag_rows f = [])
                     then [NoResultRow (frag_columns f)] else [])) ∧
  has_reset_button w1 = bool_decide (frag_rows f = []) ∧
  (if decide (frag_rows f = []) then
     if truthy (currentPid w) then
       tags w2 = clear_active <$> tags w ∧
       (∀ t, t ∈ tags w2 → "active" ∉ tag_classes t) ∧
       currentPid w2 = currentPid w ∧
       requests w2 = requests w ++ [url] ∧
       trace w2 = trace w1 ++ [EvTagsReset; EvSetCurrentPid (currentPid w);
                               EvLoaderStart; EvGet url]
     else w2 = w1
   else w2 = w1).
Proof.
  intros Hf Hl w1 w2 url.
  assert (Hw1 : w1 =
    let t := restyle f in
    let w' := log (EvTable (Some t)) (set_detail (Some t) true false w) in
    if Nat.eqb (length (frag_rows f)) 0
    then set_detail (Some (append_row (NoResultRow (frag_columns f)) t)) true false w'
    else w').
  { subst w1. unfold run, renderTable, bind, modify. rewrite Hf. cbn.
    destruct (frag_rows f); reflexivity. }
  pose proof (data_rows_no_button (frag_rows f)) as Hno.
  destruct (decide (frag_rows f = [])) as [Hrows|Hrows].
  - rewrite Hrows in Hw1. cbn in Hw1.
    split; [|split].
    + eexists. rewrite Hw1. split; [reflexivity|]. cbn. by rewrite Hrows.
    + rewrite Hw1, bool_decide_eq_true_2 by exact Hrows. cbn. by rewrite Hrows.
    + assert (Hbtn : has_reset_button w1 = true).
      { rewrite Hw1. cbn. by rewrite Hrows. }
      subst w2. unfold step, ProcessBehaviorView.step, run, handler.
      rewrite bind_get, Hbtn. unfold reset_filter. rewrite bind_get.
      assert (Hpid : currentPid w1 = currentPid w) by (rewrite Hw1; reflexivity).
      rewrite Hpid. destruct (truthy (currentPid w)) eqn:Htr; [|reflexivity].
      rewrite bind_modify.
      rewrite (loadChunk_with_loader _ _ _ l) by (rewrite Hw1; exact Hl).
      cbn. rewrite Hw1. cbn. rewrite <- !app_assoc.
      repeat split; try reflexivity.
      intros t [t0 [-> _]]%list_elem_of_fmap. cbn. unfold Tree.removeClass.
      set_solver.
  - assert (Hlen : Nat.eqb (length (frag_rows f)) 0 = false).
    { destruct (frag_rows f); [congruence | reflexivity]. }
    rewrite Hlen in Hw1. cbn in Hw1.
    assert (Hbtn : has_reset_button w1 = false).
    { rewrite Hw1. cbn. exact Hno. }
    split; [|split].
    + eexists. rewrite Hw1. split; [reflexivity|]. cbn. by rewrite app_nil_r.
    + rewrite Hbtn, bool_decide_eq_false_2 by exact Hrows. reflexivity.
    + subst w2. unfold step, ProcessBehaviorView.step, run, handler.
      rewrite bind_get, Hbtn. reflexivity.
Qed.

(** [populate] when the element gives a record, on a world whose bar, if
    any, is bound. *)
Lemma populate_record el data w :
  (∀ b, _bar w = Some b → PaginationBar.dollar b = true) →
  match el with None => Some (JRecord empty_record) | Some t => JSON_parse t end
    = Some (JRecord data) →
  populate PROCESS_TREE_PAGINATION_INFO JSON_parse el w =
    (Ok tt,
     let w1 := set_placeholders
       {| detail_pid := set_text (pid data) (detail_pid (placeholders w));
          detail_ppid := set_text (ppid data) (detail_ppid (placeholders w));
          detail_name := set_text (name data) (detail_name (placeholders w)) |} w in
     let w2 := log (EvSetCurrentPage (VNum (Int 1))) (set_currentPage (VNum (Int 1)) w1) in
     let w3 := match _bar w with
               | Some _ => log EvBarDestroy (set_pagination [] w2)
               | None => w2
               end in
     let bc := PaginationBar.new_bar
        {| PaginationBar.opt_container := Some true;
           PaginationBar.opt_currentPage := None;
           PaginationBar.opt_totalPages :=
             Int <$> PROCESS_TREE_PAGINATION_INFO !! to_string (pid data);
           PaginationBar.opt_display := None;
           PaginationBar.opt_onPaginate := Some (PaginationBar.CbLoadPage (pid data)) |}
        (pagination w3) in
     log (EvBarRender bc.2) (set_bar (Some bc.1) (set_pagination bc.2 w3))).
Proof.
  intros Hbound Hdata.
  assert (Hparse : parseProcessData JSON_parse el w = (Ok (JRecord data), w)).
  { unfold parseProcessData.
    destruct el as [t|]; [rewrite Hdata | injection Hdata as <-]; reflexivity. }
  unfold populate. rewrite (bind_ok _ _ _ _ _ Hparse).
  rewrite bind_modify. unfold renderBar. rewrite bind_modify, bind_get.
  cbn [_bar log set_currentPage set_placeholders].
  destruct (_bar w) as [b|] eqn:Hb.
  - pose proof (Hbound b eq_refl) as Hd.
    unfold bind, bar_destroy, PaginationBar.destroy. rewrite Hd.
    cbn. reflexivity.
  - unfold bind, ret. cbn. reflexivity.
Qed.

(** C9: in every state the view can reach, [populate] with an absent script
    element does not throw: [parseProcessData] gives the empty record, the
    three placeholders are written with its (undefined) fields, which leaves
    their text as it is, and a bar on page 1 is rendered.  With an element
    whose text parses to a record, the same is done with that record: each
    placeholder shows the text of its field (the decimal digits of a number,
    the characters of a string, nothing for [null]), or keeps its text when
    the record lacks the field.  (A text that parses to [null] makes
    [populate] throw a [TypeError], one that does not parse a
    [SyntaxError]; the view is then left as it was.) *)
Theorem populate_absent_element (p : Page) (xs : list Input) (el : option string) :
  let w := steps (new_view p) xs in
  parseProcessData JSON_parse None w = (Ok (JRecord empty_record), w) ∧
  fst (populate PROCESS_TREE_PAGINATION_INFO JSON_parse None w) = Ok tt ∧
  placeholders (snd (populate PROCESS_TREE_PAGINATION_INFO JSON_parse None w))
    = placeholders w ∧
  let r := populate PROCESS_TREE_PAGINATION_INFO JSON_parse el w in
  match (match el with
         | None => Some (JRecord empty_record)
         | Some t => JSON_parse t
         end) with
  | Some (JRecord data) =>
      fst r = Ok tt ∧
      placeholders (snd r) =
        {| detail_pid := set_text (pid data) (detail_pid (placeholders w));
           detail_ppid := set_text (ppid data) (detail_ppid (placeholders w));
           detail_name := set_text (name data) (detail_name (placeholders w)) |} ∧
      detail_pid (placeholders (snd r)) =
        match pid data with
        | VUndefined => detail_pid (placeholders w)
        | VNull => ""
        | VNum NaN => "NaN"
        | VNum (Int z) => num_to_string z
        | VStr s => s
        end ∧
      detail_ppid (placeholders (snd r)) =
        match ppid data with
        | VUndefined => detail_ppid (placeholders w)
        | VNull => ""
        | VNum NaN => "NaN"
        | VNum (Int z) => num_to_string z
        | VStr s => s
        end ∧
      detail_name (placeholders (snd r)) =
        match name data with
        | VUndefined => detail_name (placeholders w)
        | VNull => ""
        | VNum NaN => "NaN"
        | VNum (Int z) => num_to_string z
        | VStr s => s
        end ∧
      currentPage (snd r) = VNum (Int 1) ∧
      ∃ b, _bar (snd r) = Some b ∧
           PaginationBar.currentPage (PaginationBar.config b) = Int 1 ∧
           PaginationBar.totalPages (PaginationBar.config b) =
             default (Int 40) (Int <$> PROCESS_TREE_PAGINATION_INFO !! to_string (pid data)) ∧
           PaginationBar.onPaginate (PaginationBar.config b) =
             PaginationBar.CbLoadPage (pid data) ∧
           pagination (snd r) = PaginationBar.render_html (PaginationBar.config b)
  | Some JNull => fst r = Throw TypeError ∧ snd r = w
  | None => fst r = Throw SyntaxError ∧ snd r = w
  end.
Proof.
  intros w.
  assert (Hbound : ∀ b, _bar w = Some b → PaginationBar.dollar b = true).
  { intros b. apply reachable_bar_bound. }
  split; [reflexivity|].
  split; [by rewrite (populate_record None empty_record w Hbound eq_refl)|].
  split.
  { rewrite (populate_record None empty_record w Hbound eq_refl). cbn.
    destruct (_bar w); cbn; destruct (placeholders w); reflexivity. }
  intros r. subst r.
  destruct (match el with None => Some (JRecord empty_record) | Some t => JSON_parse t end)
    as [[|data]|] eqn:Hdata.
  - destruct el as [t|]; [|discriminate].
    unfold populate, parseProcessData, bind. rewrite Hdata. split; reflexivity.
  - rewrite (populate_record el data w Hbound Hdata). cbn [fst snd].
    split; [reflexivity|].
    split; [cbn; destruct (_bar w); reflexivity|].
    split; [cbn; destruct (_bar w), (pid data) as [| |[|z]|s]; reflexivity|].
    split; [cbn; destruct (_bar w), (ppid data) as [| |[|z]|s]; reflexivity|].
    split; [cbn; destruct (_bar w), (name data) as [| |[|z]|s]; reflexivity|].
    split; [cbn; destruct (_bar w); reflexivity|].
    eexists. split; [cbn; reflexivity|].
    cbn. destruct (_bar w); cbn; repeat split; reflexivity.
  - destruct el as [t|]; [|discriminate].
    unfold populate, parseProcessData, bind. rewrite Hdata. split; reflexivity.
Qed.

End ViewClaims.

Section ViewWitnesses.

Import ProcessBehaviorView.


Lemma loadChunk_without_loader_witness :
  let task_id := VNum (Int 7) in
  let p := demo_page in
  let xs := [ClickLoad (VNum (Int 4)) "{}"; ClickFilter 0] in
  page_loading p = 0%nat ∧
  _loader (new_view p) = None ∧
  let w := steps task_id ∅ (λ _, Some (JRecord empty_record)) demo_parseHTML (new_view p) xs in
  let r := loadChunk task_id (VNum (Int 4)) VUndefined w in
  fst r = Throw TypeError ∧
  requests (snd r) = requests w ∧
  currentPid (snd r) = VNum (Int 4) ∧
  trace (snd r) = trace w ++ [EvSetCurrentPid (VNum (Int 4))].
Proof.
  intros task_id p xs. split; [reflexivity|].
  exact (loadChunk_without_loader task_id ∅ (λ _, Some (JRecord empty_record)) demo_parseHTML
           p xs (VNum (Int 4)) VUndefined eq_refl).
Defined.

Lemma loader_stops_only_on_success_witness :
  let task_id := VNum (Int 7) in
  let step := step task_id ∅ (λ _, Some (JRecord empty_record)) demo_parseHTML in
  let steps := steps task_id ∅ (λ _, Some (JRecord empty_record)) demo_parseHTML in
  let w := demo_world in
  let pid := VNum (Int 4) in
  let xs := [Failure 0; ClickHeader [0%nat]; ClickReset] in
  _loader w = Some {| loading := false |} ∧ Forall not_success xs ∧
  let w1 := run (loadChunk task_id pid VUndefined) w in
  (∃ url, trace w1 = trace w ++ [EvSetCurrentPid pid; EvLoaderStart; EvGet url] ∧
          requests w1 = requests w ++ [url]) ∧
  _loader w1 = Some {| loading := true |} ∧
  _loader (steps w1 xs) = Some {| loading := true |} ∧
  (∀ i res, is_Some (requests w1 !! i) →
     _loader (step w1 (Success i res)) = Some {| loading := false |}).
Proof.
  intros task_id step steps w pid xs.
  assert (Hxs : Forall not_success xs) by (repeat constructor).
  split; [reflexivity|]. split; [exact Hxs|].
  exact (loader_stops_only_on_success task_id ∅ (λ _, Some (JRecord empty_record)) demo_parseHTML
           w {| loading := false |} pid VUndefined xs eq_refl Hxs).
Defined.

Lemma renderTable_no_results_witness :
  let task_id := VNum (Int 7) in
  let step := step task_id ∅ (λ _, Some (JRecord empty_record)) demo_parseHTML in
  let f := {| frag_classes := {["table"]}; frag_columns := 3; frag_rows := [] |} in
  let w := demo_world in
  demo_parseHTML "" = Some f ∧ _loader w = Some {| loading := false |} ∧
  let w1 := run (renderTable demo_parseHTML "") w in
  let w2 := step w1 ClickReset in
  let url := "/analysis/chunk/" +:+ to_string task_id +:+ "/"
               +:+ to_string (currentPid w) +:+ "/" +:+ to_string (currentPage w) in
  (∃ t, behavior_table w1 = Some t ∧
        rows t = (DataRow <$> frag_rows f)
                 ++ (if decide (frag_rows f = [])
                     then [NoResultRow (frag_columns f)] else [])) ∧
  has_reset_button w1 = bool_decide (frag_rows f = []) ∧
  (if decide (frag_rows f = []) then
     if truthy (currentPid w) then
       tags w2 = clear_active <$> tags w ∧
       (∀ t, t ∈ tags w2 → "active" ∉ tag_classes t) ∧
       currentPid w2 = currentPid w ∧
       requests w2 = requests w ++ [url] ∧
       trace w2 = trace w1 ++ [EvTagsReset; EvSetCurrentPid (currentPid w);
                               EvLoaderStart; EvGet url]
     else w2 = w1
   else w2 = w1).
Proof.
  intros task_id step f w. split; [reflexivity|]. split; [reflexivity|].
  exact (renderTable_no_results task_id ∅ (λ _, Some (JRecord empty_record)) demo_parseHTML
           "" f w {| loading := false |} eq_refl eq_refl).
Defined.

Lemma populate_absent_element_witness :
  let task_id := VNum (Int 7) in
  let info : gmap string Z := {["4" := 3]} in
  let w := steps task_id info demo_JSON_parse demo_parseHTML
             (new_view demo_loading_page) [] in
  parseProcessData demo_JSON_parse None w = (Ok (JRecord empty_record), w) ∧
  fst (populate info demo_JSON_parse None w) = Ok tt ∧
  placeholders (snd (populate info demo_JSON_parse None w)) = placeholders w ∧
  let r := populate info demo_JSON_parse (Some "{}") w in
  fst r = Ok tt ∧
  placeholders (snd r) =
    {| detail_pid := set_text (VNum (Int 4)) (detail_pid (placeholders w));
       detail_ppid := set_text (VNum (Int 1)) (detail_ppid (placeholders w));
       detail_name := set_text (VStr "a.exe") (detail_name (placeholders w)) |} ∧
  detail_pid (placeholders (snd r)) = "4" ∧
  detail_ppid (placeholders (snd r)) = "1" ∧
  detail_name (placeholders (snd r)) = "a.exe" ∧
  currentPage (snd r) = VNum (Int 1) ∧
  ∃ b, _bar (snd r) = Some b ∧
       PaginationBar.currentPage (PaginationBar.config b) = Int 1 ∧
       PaginationBar.totalPages (PaginationBar.config b) = Int 3 ∧
       PaginationBar.onPaginate (PaginationBar.config b) =
         PaginationBar.CbLoadPage (VNum (Int 4)) ∧
       pagination (snd r) = PaginationBar.render_html (PaginationBar.config b).
Proof.
  intros task_id info w.
  exact (populate_absent_element task_id info demo_JSON_parse demo_parseHTML
           demo_loading_page [] (Some "{}")).
Defined.

End ViewWitnesses.

(** * Further properties *)

(** ** PaginationBar *)

Section PaginationBarMore.

Import PaginationBar.

(** The rendered links depend on [currentPage] and [totalPages] only: the
    [display] option, the container and the callback play no part. *)
Theorem render_html_only_pages c d cb c' d' cb' cp tp :
  render_html {| container := c; currentPage := cp; totalPages := tp;
                 display := d; onPaginate := cb |} =
  render_html {| container := c'; currentPage := cp; totalPages := tp;
                 display := d'; onPaginate := cb' |}.
Proof.
  unfold render_html. cbn [currentPage totalPages].
  destruct (Math_max (Int 2) (num_sub cp 10)) as [|lo],
           (Math_min tp (num_add cp 10)) as [|hi];
    cbn [page_for]; rewrite ?page_loop_range; reflexivity.
Qed.

(** The first item is always the link of page 1. *)
Lemma render_html_first config :
  render_html config !! 0%nat = Some (_page config (PNum (Int 1))).
Proof.
  unfold render_html.
  assert (Hfor : ∀ lo hi html l, html !! 0%nat = Some l →
                 page_for config lo hi html !! 0%nat = Some l).
  { intros [|lo] [|hi] html l Hl; cbn [page_for]; try exact Hl.
    rewrite page_loop_range. by apply lookup_app_l_Some. }
  assert (Hhead : (if num_gt (num_sub (currentPage config) 10) (Int 2)
                   then ([] ++ [_page config (PNum (Int 1))]) ++ [_page config PDots]
                   else [] ++ [_page config (PNum (Int 1))]) !! 0%nat
                  = Some (_page config (PNum (Int 1)))).
  { destruct (num_gt _ _); reflexivity. }
  destruct (num_lt _ _).
  - rewrite <- app_assoc. apply lookup_app_l_Some. by apply Hfor.
  - by apply Hfor.
Qed.

Lemma length_render_args cp tp :
  length (render_args cp tp) =
  (1 + (if decide (2 < cp - 10)%Z then 1 else 0)
     + Z.to_nat (Z.min tp (cp + 10) + 1 - Z.max 2 (cp - 10))%Z
     + (if decide (cp + 10 < tp)%Z then 2 else 0))%nat.
Proof.
  unfold render_args, page_range.
  rewrite !length_app, length_fmap, length_seqZ.
  repeat case_decide; simpl; lia.
Qed.

(** However many pages there are, the bar has at most 25 items: the first
    page, an ellipsis, a window of at most 21 pages, an ellipsis and the last
    page. *)
Theorem render_html_length c cp tp d cb :
  (length (render_html (int_config c cp tp d cb)) ≤ 25)%nat.
Proof.
  rewrite render_html_args, length_fmap, length_render_args.
  repeat case_decide; lia.
Qed.

Lemma page_numbers_page config (args : list PageArg) :
  page_numbers (_page config <$> args) =
  omap (λ a, match a with PNum (Int z) => Some z | _ => None end) args.
Proof.
  unfold page_numbers. induction args as [|a args IH]; [reflexivity|].
  rewrite fmap_cons. cbn [omap list_omap text _page].
  fold (omap (λ l, match text l with PNum (Int z) => Some z | _ => None end)
          (_page config <$> args)).
  fold (omap (λ a, match a with PNum (Int z) => Some z | _ => None end) args).
  rewrite IH. reflexivity.
Qed.

Lemma omap_numbers (zs : list Z) :
  omap (λ a, match a with PNum (Int z) => Some z | _ => None end)
    (PNum ∘ Int <$> zs) = zs.
Proof.
  induction zs as [|z zs IH]; [reflexivity|].
  rewrite fmap_cons. cbn. f_equal. exact IH.
Qed.

Lemma seqZ_sorted (n : nat) lo : StronglySorted Z.lt (seqZ lo (Z.of_nat n)).
Proof.
  revert lo. induction n as [|n IH]; intros lo.
  - rewrite seqZ_nil by lia. constructor.
  - rewrite seqZ_cons by lia.
    replace (Z.pred (Z.of_nat (S n))) with (Z.of_nat n) by lia.
    apply StronglySorted_cons. split; [|apply IH].
    apply Forall_forall. intros x Hx%elem_of_seqZ. lia.
Qed.

(** From page 1 on, the page numbers of the links increase strictly along
    the bar: no page is linked twice. *)
Theorem render_html_increasing c cp tp d cb :
  1 ≤ cp →
  StronglySorted Z.lt (page_numbers (render_html (int_config c cp tp d cb))).
Proof.
  intros Hcp. rewrite render_html_args, page_numbers_page.
  unfold render_args, page_range. rewrite !omap_app, omap_numbers.
  set (lo := Z.max 2 (cp - 10)). set (hi := Z.min tp (cp + 10)).
  assert (Hw : StronglySorted Z.lt (seqZ lo (hi + 1 - lo))).
  { destruct (decide (0 ≤ hi + 1 - lo)).
    - rewrite <- (Z2Nat.id (hi + 1 - lo)) by lia. apply seqZ_sorted.
    - rewrite seqZ_nil by lia. constructor. }
  cbn [omap list_omap]. simpl.
  apply StronglySorted_cons. split.
  - apply Forall_forall. intros x.
    rewrite !elem_of_app, elem_of_seqZ.
    repeat case_decide; cbn; set_solver by lia.
  - apply StronglySorted_app_2.
    + repeat case_decide; cbn; set_solver.
    + repeat case_decide; cbn; constructor.
    + apply StronglySorted_app_2; [|exact Hw|].
      * intros x1 x2 Hx1%elem_of_seqZ. case_decide; cbn; [|set_solver].
        intros ->%list_elem_of_singleton. lia.
      * case_decide; cbn; repeat constructor.
Qed.

Lemma render_html_increasing_witness :
  1 ≤ 30 ∧
  StronglySorted Z.lt
    (page_numbers (render_html (int_config true 30 80 (Int 20) CbDefault))).
Proof.
  split; [lia|]. apply (render_html_increasing true 30 80 (Int 20) CbDefault). lia.
Defined.

(** [goto] with a text that holds no number (it starts with a visible
    character, and no digits follow its optional sign): [currentPage]
    becomes [NaN], the bar shrinks to the single link of page 1, which is
    not active, and the callback is still called with the text. *)
Theorem goto_not_a_number (n : string) (b : Bar) (children : list Link) :
  container (config b) = true →
  starts_plain n = true →
  parseInt n = NaN →
  let '(b', children', call) := goto n b children in
  children' = [{| text := PNum (Int 1); active := false; href := Some "page:1" |}] ∧
  currentPage (config b') = NaN ∧
  call = (onPaginate (config b), VStr n).
Proof.
  destruct b as [[c cp tp d cb] dl]. cbn [config container]. intros -> _ Hn.
  unfold goto, render. rewrite Hn. cbn. auto.
Qed.

Lemma goto_not_a_number_witness :
  let b := {| config := int_config true 3 40 (Int 20) CbDefault; dollar := true |} in
  container (config b) = true ∧
  starts_plain "next" = true ∧
  parseInt "next" = NaN ∧
  let '(b', children', call) := goto "next" b [] in
  children' = [{| text := PNum (Int 1); active := false; href := Some "page:1" |}] ∧
  currentPage (config b') = NaN ∧
  call = (onPaginate (config b), VStr "next").
Proof.
  intros b. split; [reflexivity|]. split; [reflexivity|]. split; [reflexivity|].
  exact (goto_not_a_number "next" b [] eq_refl eq_refl eq_refl).
Defined.

(** A bar built with a container is rendered into it and can be destroyed,
    which empties the container.  A bar built without one leaves the
    document alone, has no clickable link, and [destroy()] throws on it. *)
Theorem new_bar_container (o : Options) (children : list Link) :
  let '(b, children') := new_bar o children in
  if default false (opt_container o)
  then children' = render_html (extend o) ∧ destroy b children' = Some []
  else children' = children ∧ destroy b children' = None ∧
       ∀ i, click i b children' = None.
Proof.
  unfold new_bar, render, destroy, click. cbn [config extend container].
  destruct (default false (opt_container o)); cbn; auto.
Qed.

(** After a click on the link of page [n], with [1 <= n <= totalPages], the
    one active link of the bar is the link of page [n]. *)
Theorem click_makes_active (b : Bar) (children : list Link) i l n tp :
  dollar b = true →
  container (config b) = true →
  totalPages (config b) = Int tp →
  children !! i = Some l →
  href l = Some ("page:" +:+ num_to_string n) →
  1 ≤ n ≤ tp →
  ∃ b' children' call,
    click i b children = Some (b', children', call) ∧
    ∃ l', filter (λ l, active l = true) children' = [l'] ∧ text l' = PNum (Int n).
Proof.
  destruct b as [[c cp t d cb] dl]. cbn [config container dollar totalPages].
  intros -> -> -> Hi Hh Hn.
  unfold click. cbn [dollar]. rewrite Hi, Hh, remove_first_page.
  unfold goto, render. rewrite parseInt_num_to_string.
  cbn [set_page config container bind onPaginate totalPages display dollar].
  do 3 eexists. split; [reflexivity|].
  change ({| container := true; currentPage := Int n; totalPages := Int tp;
             display := d; onPaginate := cb |})
    with (int_config true n tp d cb).
  rewrite render_html_args.
  exists (_page (int_config true n tp d cb) (PNum (Int n))). split; [|reflexivity].
  rewrite (filter_fmap_iff _ _ (λ a, a = PNum (Int n))) by apply active_page.
  by rewrite render_args_active.
Qed.

Lemma click_makes_active_witness :
  let b := {| config := int_config true 1 40 (Int 20) CbDefault; dollar := true |} in
  let children := render_html (config b) in
  let l := _page (config b) (PNum (Int 7)) in
  dollar b = true ∧ container (config b) = true ∧
  totalPages (config b) = Int 40 ∧
  children !! 6%nat = Some l ∧
  href l = Some ("page:" +:+ num_to_string 7) ∧
  1 ≤ 7 ≤ 40 ∧
  ∃ b' children' call,
    click 6 b children = Some (b', children', call) ∧
    ∃ l', filter (λ l, active l = true) children' = [l'] ∧ text l' = PNum (Int 7).
Proof.
  intros b children l.
  assert (Hi : children !! 6%nat = Some l) by (vm_compute; reflexivity).
  repeat (split; [first [reflexivity | exact Hi | lia]|]).
  exact (click_makes_active b children 6 l 7 40 eq_refl eq_refl eq_refl Hi eq_refl
           ltac:(lia)).
Defined.

End PaginationBarMore.

(** ** Tree *)

Section TreeMore.

Import Tree.

(** One toggle puts the control in step with its lists: it carries
    [is-open] exactly when a nested list is open.  From then on two more
    toggles bring the branch back to the same state. *)
Theorem toggleBranch_in_step (b : Branch) :
  let b1 := toggleBranch b in
  ("is-open" ∈ toggle b1 ↔ hasClass "open" (nested b1) = true) ∧
  toggleBranch (toggleBranch b1) = b1.
Proof.
  intros b1.
  assert (Hstep : "is-open" ∈ toggle b1 ↔ hasClass "open" (nested b1) = true).
  { subst b1. unfold toggleBranch. cbn [toggle nested].
    rewrite elem_of_toggleClass_to. naive_solver. }
  split; [exact Hstep|].
  unfold toggleBranch at 1 2. cbn [nested toggle].
  rewrite toggle_nested_twice.
  destruct b1 as [t ns]. cbn [toggle nested] in *. f_equal.
  apply set_eq. intros x. rewrite !elem_of_toggleClass_to.
  destruct (hasClass "open" ns), (hasClass "open" (toggleClass "open" <$> ns)),
    (decide (x = "is-open")) as [->|]; naive_solver.
Qed.

(** A control with no nested list beside it (no enclosing item, or an item
    without a list) loses [is-open] on a click and keeps its other classes. *)
Theorem toggleBranch_no_list (b : Branch) :
  nested b = [] →
  nested (toggleBranch b) = [] ∧
  ("is-open" ∉ toggle (toggleBranch b)) ∧
  (∀ c, c ≠ "is-open" → c ∈ toggle (toggleBranch b) ↔ c ∈ toggle b).
Proof.
  intros Hn. unfold toggleBranch. rewrite Hn. cbn.
  split; [reflexivity|]. unfold toggleClass_to. set_solver.
Qed.

Lemma toggleBranch_no_list_witness :
  let b := {| toggle := {["is-open"; "btn"]}; nested := [] |} in
  nested b = [] ∧
  nested (toggleBranch b) = [] ∧
  ("is-open" ∉ toggle (toggleBranch b)) ∧
  (∀ c, c ≠ "is-open" → c ∈ toggle (toggleBranch b) ↔ c ∈ toggle b).
Proof.
  intros b. split; [reflexivity|]. exact (toggleBranch_no_list b eq_refl).
Defined.

(** A toggle flips [open] on every nested list, each on its own, and leaves
    the other classes of the lists as they are. *)
Theorem toggleBranch_flips_each (b : Branch) (k : nat) :
  length (nested (toggleBranch b)) = length (nested b) ∧
  match nested b !! k with
  | Some cs =>
      ∃ cs', nested (toggleBranch b) !! k = Some cs' ∧
             ("open" ∈ cs' ↔ "open" ∉ cs) ∧
             ∀ c, c ≠ "open" → c ∈ cs' ↔ c ∈ cs
  | None => nested (toggleBranch b) !! k = None
  end.
Proof.
  unfold toggleBranch. cbn [nested]. rewrite length_fmap, list_lookup_fmap.
  split; [reflexivity|].
  destruct (nested b !! k) as [cs|]; [|reflexivity].
  exists (toggleClass "open" cs). split; [reflexivity|].
  unfold toggleClass. case_decide; set_solver.
Qed.

End TreeMore.

(** ** ProcessBehaviorView *)

Section ViewMore.

Import ProcessBehaviorView.

Variable task_id : JsVal.
Variable PROCESS_TREE_PAGINATION_INFO : gmap string Z.
Variable JSON_parse : string -> option Parsed.
Variable parseHTML : string -> option Fragment.

Let step := step task_id PROCESS_TREE_PAGINATION_INFO JSON_parse parseHTML.
Let steps := steps task_id PROCESS_TREE_PAGINATION_INFO JSON_parse parseHTML.

(** No handler creates or drops the loader: a view has one in a later state
    exactly when it had one before. *)
Theorem loader_presence_kept (w : World) (xs : list Input) :
  is_Some (_loader (steps w xs)) ↔ is_Some (_loader w).
Proof.
  split.
  - intros Hs. destruct (_loader w) as [l|] eqn:Hl; [by eexists|].
    exfalso.
    assert (Hn : _loader (steps w xs) = None).
    { apply (steps_preserves_any task_id PROCESS_TREE_PAGINATION_INFO JSON_parse
        parseHTML (λ lo _, lo = None)); try discriminate; auto. }
    rewrite Hn in Hs. by destruct Hs.
  - intros Hs.
    apply (steps_preserves_any task_id PROCESS_TREE_PAGINATION_INFO JSON_parse
      parseHTML (λ lo _, is_Some lo)); eauto.
Qed.

Lemma reachable_with_loader p xs :
  page_loading p ≠ 0%nat → ∃ l, _loader (steps (new_view p) xs) = Some l.
Proof.
  intros Hp.
  apply (steps_preserves_any task_id PROCESS_TREE_PAGINATION_INFO JSON_parse
    parseHTML (λ lo _, is_Some lo)); eauto.
  unfold new_view. cbn [_loader].
  destruct (page_loading p); [congruence | by eexists].
Qed.

(** *** Pane headers *)

Lemma alter_toggle_twice c i (l : list (gset string)) :
  alter (Tree.toggleClass c) i (alter (Tree.toggleClass c) i l) = l.
Proof.
  apply list_eq. intros j. destruct (decide (i = j)) as [->|Hij].
  - rewrite !list_lookup_alter_eq. destruct (l !! j) as [cs|]; [|reflexivity].
    cbn. by rewrite toggleClass_twice.
  - by rewrite !list_lookup_alter_ne.
Qed.

Lemma alter_toggle_comm c i j (l : list (gset string)) :
  alter (Tree.toggleClass c) i (alter (Tree.toggleClass c) j l) =
  alter (Tree.toggleClass c) j (alter (Tree.toggleClass c) i l).
Proof.
  apply list_eq. intros k. rewrite !list_lookup_alter.
  repeat case_decide; subst; rewrite ?list_lookup_alter_eq, ?list_lookup_alter_ne;
    try reflexivity; try congruence.
Qed.

Lemma foldr_toggle_out c i ancestors (l : list (gset string)) :
  foldr (λ j, alter (Tree.toggleClass c) j) (alter (Tree.toggleClass c) i l) ancestors =
  alter (Tree.toggleClass c) i (foldr (λ j, alter (Tree.toggleClass c) j) l ancestors).
Proof.
  induction ancestors as [|j js IH]; [reflexivity|].
  cbn. rewrite IH. apply alter_toggle_comm.
Qed.

Lemma foldr_toggle_twice c ancestors (l : list (gset string)) :
  foldr (λ j, alter (Tree.toggleClass c) j)
    (foldr (λ j, alter (Tree.toggleClass c) j) l ancestors) ancestors = l.
Proof.
  induction ancestors as [|j js IH]; [reflexivity|].
  cbn. rewrite foldr_toggle_out, alter_toggle_twice. exact IH.
Qed.

(** Two clicks on the same pane header leave the view exactly as it was:
    the collapse of a pane is undone by the next click. *)
Theorem header_click_twice (w : World) (ancestors : list nat) :
  step (step w (ClickHeader ancestors)) (ClickHeader ancestors) = w.
Proof.
  unfold step, ProcessBehaviorView.step, run, handler, on_header, modify.
  destruct w. unfold set_panes. cbn [snd panes _bar _loader currentPage currentPid
    pagination tags behavior_table loaded_shown unloaded_shown placeholders tree
    requests trace]. f_equal. apply foldr_toggle_twice.
Qed.

(** *** Loading a process *)

(** A click on a process of the tree requests the chunk at the page that
    was current before the click; only afterwards is [currentPage] reset to
    1 and the bar rebuilt on page 1 for the pid of the embedded record, and
    the tag links lose [active]. *)
Theorem click_load_requests_old_page
    (p : Page) (xs : list Input) (load : JsVal) (script : string) (data : ProcessData) :
  page_loading p ≠ 0%nat →
  JSON_parse script = Some (JRecord data) →
  let w := steps (new_view p) xs in
  let w' := step w (ClickLoad load script) in
  requests w' = requests w ++ [chunk_url task_id load (currentPage w)] ∧
  currentPid w' = load ∧
  currentPage w' = VNum (Int 1) ∧
  _loader w' = Some {| loading := true |} ∧
  tags w' = clear_active <$> tags w ∧
  ∃ b, _bar w' = Some b ∧
       PaginationBar.currentPage (PaginationBar.config b) = Int 1 ∧
       PaginationBar.onPaginate (PaginationBar.config b)
         = PaginationBar.CbLoadPage (pid data) ∧
       pagination w' = PaginationBar.render_html (PaginationBar.config b).
Proof.
  intros Hp Hdata w w'.
  destruct (reachable_with_loader p xs Hp) as [l Hl]. fold w in Hl.
  assert (Hbound : ∀ b, _bar w = Some b → PaginationBar.dollar b = true).
  { intros b. apply (reachable_bar_bound task_id PROCESS_TREE_PAGINATION_INFO
      JSON_parse parseHTML p xs). }
  subst w'. unfold step, ProcessBehaviorView.step, run, handler, on_load.
  rewrite (bind_ok _ _ _ _ _ (loadChunk_with_loader task_id load VUndefined w l Hl)).
  cbn [truthy negb].
  set (w1 := log _ _).
  assert (Hbound1 : ∀ b, _bar w1 = Some b → PaginationBar.dollar b = true)
    by exact Hbound.
  rewrite (bind_ok _ _ _ _ _
    (populate_record PROCESS_TREE_PAGINATION_INFO JSON_parse (Some script) data w1
       Hbound1 Hdata)).
  unfold modify. cbn [snd].
  subst w1. cbn.
  destruct (_bar w); cbn; repeat split; try reflexivity;
    eexists; cbn; repeat split; reflexivity.
Qed.

(** When the embedded record does not parse, the click has already issued
    its request and started the loader, but nothing else is updated: page,
    bar, placeholders and tag links stay as they were. *)
Theorem click_load_bad_json
    (w : World) (l : Loader) (load : JsVal) (script : string) :
  _loader w = Some l →
  JSON_parse script = None →
  let w' := step w (ClickLoad load script) in
  requests w' = requests w ++ [chunk_url task_id load (currentPage w)] ∧
  currentPid w' = load ∧
  _loader w' = Some {| loading := true |} ∧
  currentPage w' = currentPage w ∧
  _bar w' = _bar w ∧
  pagination w' = pagination w ∧
  placeholders w' = placeholders w ∧
  tags w' = tags w.
Proof.
  intros Hl Hdata w'. subst w'.
  unfold step, ProcessBehaviorView.step, run, handler, on_load.
  rewrite (bind_ok _ _ _ _ _ (loadChunk_with_loader task_id load VUndefined w l Hl)).
  unfold populate, parseProcessData. unfold bind. rewrite Hdata. cbn.
  repeat split; reflexivity.
Qed.

End ViewMore.

Section ViewResponses.

Import ProcessBehaviorView.

Variable task_id : JsVal.
Variable PROCESS_TREE_PAGINATION_INFO : gmap string Z.
Variable JSON_parse : string -> option Parsed.
Variable parseHTML : string -> option Fragment.

Let step := step task_id PROCESS_TREE_PAGINATION_INFO JSON_parse parseHTML.
Let steps := steps task_id PROCESS_TREE_PAGINATION_INFO JSON_parse parseHTML.

(** The world after the success callback of the [i]-th request. *)
Lemma success_fields w l i u res :
  _loader w = Some l →
  requests w !! i = Some u →
  let w' := step w (Success i res) in
  _loader w' = Some {| loading := false |} ∧
  requests w' = delete i (requests w) ∧
  behavior_table w' =
    match parseHTML res with
    | Some f => Some (placed_table f)
    | None => behavior_table w
    end ∧
  loaded_shown w' = true ∧
  unloaded_shown w' = false.
Proof.
  intros Hl Hu w'. subst w'.
  unfold step, ProcessBehaviorView.step, run, handler.
  rewrite bind_get, Hu, bind_modify. unfold on_success.
  assert (Hstop : loader_stop (set_requests (delete i (requests w)) w) =
            (Ok tt, log EvLoaderStop (set_loader (Some {| loading := false |})
                                        (set_requests (delete i (requests w)) w)))).
  { unfold loader_stop. cbn [_loader set_requests]. by rewrite Hl. }
  rewrite (bind_ok _ _ _ _ _ Hstop).
  unfold renderTable, placed_table. rewrite bind_modify.
  destruct (parseHTML res) as [f|]; [|cbn; auto].
  cbn [from_option].
  destruct (frag_rows f) as [|r rs] eqn:Hrows; cbn.
  - rewrite decide_True by reflexivity. auto.
  - rewrite decide_False by discriminate. auto.
Qed.

(** A response without any node stops the loader and reveals the loaded
    region, but the table shown is still the old one. *)
Theorem success_without_node w l i u res :
  _loader w = Some l →
  requests w !! i = Some u →
  parseHTML res = None →
  let w' := step w (Success i res) in
  _loader w' = Some {| loading := false |} ∧
  requests w' = delete i (requests w) ∧
  behavior_table w' = behavior_table w ∧
  loaded_shown w' = true ∧
  unloaded_shown w' = false.
Proof.
  intros Hl Hu Hres w'.
  destruct (success_fields w l i u res Hl Hu) as (H1 & H2 & H3 & H4 & H5).
  rewrite Hres in H3. auto.
Qed.

(** The table placed in the page never carries the classes [table] and
    [table-bordered], always carries [cuckoo-table], and keeps every other
    class of the fragment. *)
Theorem placed_table_classes (w : World) (res : string) (f : Fragment) :
  parseHTML res = Some f →
  ∃ t, behavior_table (run (renderTable parseHTML res) w) = Some t ∧
       "cuckoo-table" ∈ table_classes t ∧
       ("table" ∉ table_classes t) ∧
       ("table-bordered" ∉ table_classes t) ∧
       (∀ c, c ≠ "cuckoo-table" → c ≠ "table" → c ≠ "table-bordered" →
             c ∈ table_classes t ↔ c ∈ frag_classes f).
Proof.
  clear step steps task_id PROCESS_TREE_PAGINATION_INFO JSON_parse.
  intros Hf. unfold run, renderTable. rewrite bind_modify, Hf.
  assert (Hc : ∀ t, table_classes t = table_classes (restyle f) →
    "cuckoo-table" ∈ table_classes t ∧
    ("table" ∉ table_classes t) ∧
    ("table-bordered" ∉ table_classes t) ∧
    (∀ c, c ≠ "cuckoo-table" → c ≠ "table" → c ≠ "table-bordered" →
          c ∈ table_classes t ↔ c ∈ frag_classes f)).
  { intros t ->. unfold restyle, Tree.addClass, Tree.removeClass.
    cbn [table_classes].
    assert ("table" ≠ "cuckoo-table") by discriminate.
    assert ("table-bordered" ≠ "cuckoo-table") by discriminate.
    set_solver. }
  cbn [from_option].
  destruct (frag_rows f) as [|r rs]; cbn; eexists; (split; [reflexivity|]);
    apply Hc; reflexivity.
Qed.

(** With two requests in flight, the first response to arrive stops the
    loader although the other request is still in flight. *)
Theorem early_response_stops_loader w l i res :
  _loader w = Some l →
  is_Some (requests w !! i) →
  (2 ≤ length (requests w))%nat →
  let w' := step w (Success i res) in
  _loader w' = Some {| loading := false |} ∧ requests w' ≠ [].
Proof.
  intros Hl [u Hu] Hlen w'.
  destruct (success_fields w l i u res Hl Hu) as (H1 & H2 & _).
  split; [exact H1|]. fold w' in H2. rewrite H2. intros Hnil.
  pose proof (length_delete (requests w) i (ex_intro _ u Hu)) as Hd.
  rewrite Hnil in Hd. simpl in Hd. lia.
Qed.

(** The table shown is the one of the response that arrived last, whichever
    request it answers and whatever was shown before. *)
Theorem latest_response_shown w l i j r1 r2 f2 :
  _loader w = Some l →
  is_Some (requests w !! i) →
  is_Some (delete i (requests w) !! j) →
  parseHTML r2 = Some f2 →
  behavior_table (steps w [Success i r1; Success j r2]) = Some (placed_table f2).
Proof.
  intros Hl [u Hu] [u' Hu'] Hf.
  change (steps w [Success i r1; Success j r2])
    with (step (step w (Success i r1)) (Success j r2)).
  destruct (success_fields w l i u r1 Hl Hu) as (H1 & H2 & _).
  rewrite <- H2 in Hu'.
  destruct (success_fields _ _ j u' r2 H1 Hu') as (_ & _ & H3 & _).
  rewrite H3, Hf. reflexivity.
Qed.

End ViewResponses.

Section ViewFilters.

Import ProcessBehaviorView.

Variable task_id : JsVal.
Variable PROCESS_TREE_PAGINATION_INFO : gmap string Z.
Variable JSON_parse : string -> option Parsed.
Variable parseHTML : string -> option Fragment.

Let step := step task_id PROCESS_TREE_PAGINATION_INFO JSON_parse parseHTML.
Let steps := steps task_id PROCESS_TREE_PAGINATION_INFO JSON_parse parseHTML.

(** *** The filter named by a tag link *)

Lemma app_String c a b : String c a +:+ b = String c (a +:+ b).
Proof. reflexivity. Qed.

Lemma split_cons sep s : ∃ h t, split sep s = h :: t.
Proof.
  induction s as [|c s (h & t & IH)]; cbn; [by eauto|].
  destruct (Ascii.eqb c sep); [by eauto|]. rewrite IH. by eauto.
Qed.

Lemma split_at_sep sep a b :
  contains sep a = false →
  split sep (a +:+ String sep b) = a :: split sep b.
Proof.
  induction a as [|c a IH]; intros Ha.
  - change ("" +:+ String sep b) with (String sep b).
    cbn [split]. by rewrite Ascii.eqb_refl.
  - cbn in Ha. apply orb_false_elim in Ha as [Hc Ha].
    rewrite app_String. cbn [split]. rewrite Hc, (IH Ha). reflexivity.
Qed.

Lemma split_without_sep sep a : contains sep a = false → split sep a = [a].
Proof.
  induction a as [|c a IH]; intros Ha; [reflexivity|].
  cbn in Ha. apply orb_false_elim in Ha as [Hc Ha].
  cbn [split]. rewrite Hc, (IH Ha). reflexivity.
Qed.

(** The filter taken from [filter:f] is [f]; from [filter:f:g] it is [f]
    as well: what follows a second colon is dropped. *)
Theorem filter_of_href (f g : string) :
  contains ":" f = false →
  index (split ":" ("filter:" +:+ f)) 1 = VStr f ∧
  index (split ":" ("filter:" +:+ f +:+ ":" +:+ g)) 1 = VStr f.
Proof.
  intros Hf. split.
  - change ("filter:" +:+ f) with ("filter" +:+ String ":" f).
    rewrite split_at_sep by reflexivity.
    rewrite split_without_sep by exact Hf. reflexivity.
  - change ("filter:" +:+ f +:+ ":" +:+ g)
      with ("filter" +:+ String ":" (f +:+ String ":" g)).
    rewrite split_at_sep by reflexivity.
    rewrite split_at_sep by exact Hf. reflexivity.
Qed.

(** *** A click on a filter link *)

Lemma click_filter_world w l i t :
  _loader w = Some l →
  (∀ b, _bar w = Some b → PaginationBar.dollar b = true) →
  tags w !! i = Some t →
  String.prefix "filter:" (tag_href t) = true →
  let filter := index (split ":" (tag_href t)) 1 in
  let url := if negb (truthy filter)
             then chunk_url task_id (currentPid w) (currentPage w)
             else filtered_url task_id (currentPid w) filter in
  let w1 := match _bar w with
            | Some _ => log EvBarDestroy (set_pagination [] w)
            | None => w
            end in
  step w (ClickFilter i) =
    set_tags (alter set_active i (clear_active <$> tags w))
      (log (EvGet url)
         (set_requests (requests w ++ [url])
            (log EvLoaderStart
               (set_loader (Some {| loading := true |})
                  (log (EvSetCurrentPid (currentPid w))
                     (set_currentPid (currentPid w) w1)))))).
Proof.
  intros Hl Hbound Ht Hp filter url w1.
  unfold step, ProcessBehaviorView.step, run, handler.
  rewrite bind_get, Ht, Hp. unfold on_filter. rewrite bind_get.
  assert (Hdestroy : match _bar w with
                     | Some b => bar_destroy b
                     | None => ret tt
                     end w = (Ok tt, w1)).
  { subst w1. destruct (_bar w) as [b|] eqn:Hb; [|reflexivity].
    unfold bar_destroy, PaginationBar.destroy. by rewrite (Hbound b eq_refl). }
  rewrite (bind_ok _ _ _ _ _ Hdestroy), bind_get.
  assert (Hl1 : _loader w1 = Some l).
  { subst w1. destruct (_bar w); exact Hl. }
  assert (Hpid : currentPid w1 = currentPid w).
  { subst w1. by destruct (_bar w). }
  assert (Hpage : currentPage w1 = currentPage w).
  { subst w1. by destruct (_bar w). }
  assert (Hreq : requests w1 = requests w).
  { subst w1. by destruct (_bar w). }
  assert (Htags : tags w1 = tags w).
  { subst w1. by destruct (_bar w). }
  rewrite (bind_ok _ _ _ _ _ (loadChunk_with_loader task_id _ _ w1 l Hl1)).
  unfold modify. cbn [snd tags log set_requests set_loader set_currentPid].
  rewrite Hpid, Hpage, Hreq, Htags. reflexivity.
Qed.

(** In a view with its loader, a click on the [i]-th tag link, a filter
    link, empties the pagination bar, so that page clicks do nothing
    afterwards; requests the filtered chunk of the current pid (the plain
    chunk when the filter is empty); and leaves the clicked link as the only
    active one. *)
Theorem click_filter_effect (p : Page) (xs : list Input) (i : nat) (t : Tag) :
  page_loading p ≠ 0%nat →
  tags (steps (new_view p) xs) !! i = Some t →
  String.prefix "filter:" (tag_href t) = true →
  let w := steps (new_view p) xs in
  let w' := step w (ClickFilter i) in
  let filter := index (split ":" (tag_href t)) 1 in
  requests w' =
    requests w ++ [if truthy filter
                   then filtered_url task_id (currentPid w) filter
                   else chunk_url task_id (currentPid w) (currentPage w)] ∧
  currentPid w' = currentPid w ∧
  pagination w' = match _bar w with Some _ => [] | None => pagination w end ∧
  (∀ j, step w' (ClickPage j) = w') ∧
  (∀ j t', tags w' !! j = Some t' → "active" ∈ tag_classes t' ↔ j = i).
Proof.
  intros Hp Ht Hpre w w' filter.
  destruct (reachable_with_loader task_id PROCESS_TREE_PAGINATION_INFO JSON_parse
              parseHTML p xs Hp) as [l Hl].
  fold steps in Hl. fold w in Hl, Ht.
  assert (Hbound : ∀ b, _bar w = Some b → PaginationBar.dollar b = true).
  { intros b. apply (reachable_bar_bound task_id PROCESS_TREE_PAGINATION_INFO
      JSON_parse parseHTML p xs). }
  pose proof (click_filter_world w l i t Hl Hbound Ht Hpre) as Hw.
  cbv zeta in Hw. fold filter in Hw. fold w' in Hw.
  split; [|split; [|split; [|split]]].
  - rewrite Hw. cbn. destruct (truthy filter); reflexivity.
  - rewrite Hw. cbn. by destruct (_bar w).
  - rewrite Hw. cbn. by destruct (_bar w).
  - intros j.
    assert (Hbar : _bar w' = _bar w).
    { rewrite Hw. cbn. destruct (_bar w) eqn:E; exact E. }
    assert (Hpag : _bar w = None ∨ pagination w' = []).
    { rewrite Hw. cbn. destruct (_bar w); auto. }
    unfold step, ProcessBehaviorView.step, run, handler, on_page.
    rewrite bind_get, Hbar.
    destruct (_bar w) as [b|]; [|reflexivity].
    destruct Hpag as [[=]|Hpag]. unfold PaginationBar.click. rewrite Hpag.
    destruct (PaginationBar.dollar b); reflexivity.
  - intros j t'. rewrite Hw. cbn [tags set_tags].
    rewrite list_lookup_alter, list_lookup_fmap.
    destruct (decide (i = j)) as [->|Hij].
    + rewrite ?list_lookup_fmap, Ht. cbn. intros Heq. injection Heq as <-.
      cbn. unfold Tree.addClass. set_solver.
    + rewrite ?list_lookup_fmap.
      destruct (tags w !! j) as [t0|]; [|cbn; intros ?; discriminate]. cbn. intros Heq.
      injection Heq as <-. cbn. unfold Tree.removeClass. set_solver.
Qed.

(** A filter link clicked before any process was selected asks for the
    filtered chunk of the pid [null]. *)
Theorem filter_before_selection (p : Page) (i : nat) (t : Tag) (f : string) :
  page_loading p ≠ 0%nat →
  page_tags p !! i = Some t →
  tag_href t = "filter:" +:+ f →
  contains ":" f = false →
  f ≠ "" →
  requests (step (new_view p) (ClickFilter i)) =
    ["/analysis/filtered/" +:+ to_string task_id +:+ "/null/" +:+ f].
Proof.
  intros Hp Ht Hh Hf Hne.
  assert (Hl : _loader (new_view p) = Some {| loading := false |}).
  { unfold new_view. cbn [_loader]. destruct (page_loading p); [congruence | reflexivity]. }
  assert (Hpre : String.prefix "filter:" (tag_href t) = true).
  { rewrite Hh. change ("filter:" +:+ f) with
      (String "f" (String "i" (String "l" (String "t" (String "e"
         (String "r" (String ":" f))))))).
    cbn. by destruct f. }
  rewrite (click_filter_world (new_view p) _ i t Hl); [| discriminate | exact Ht | exact Hpre].
  rewrite Hh. change ("filter:" +:+ f) with ("filter" +:+ String ":" f).
  rewrite split_at_sep by reflexivity.
  rewrite split_without_sep by exact Hf.
  cbn. destruct f; [congruence | reflexivity].
Qed.

(** The reset button reloads the chunk but never rebuilds the bar: after a
    filter click emptied it, the bar stays empty, and the page of the view
    stays what it was. *)
Theorem reset_keeps_bar (w : World) :
  let w' := step w ClickReset in
  pagination w' = pagination w ∧
  _bar w' = _bar w ∧
  currentPage w' = currentPage w.
Proof.
  intros w'. subst w'.
  unfold step, ProcessBehaviorView.step, run, handler.
  rewrite bind_get. destruct (has_reset_button w); [|auto].
  unfold reset_filter. rewrite bind_get.
  destruct (truthy (currentPid w)); [|auto].
  rewrite bind_modify. unfold loadChunk. rewrite bind_modify, bind_get.
  cbn [currentPage log set_currentPid set_tags].
  set (url := if negb (truthy VUndefined) then _ else _).
  destruct (negb (Nat.eqb (String.length url) 0)); [|cbn; auto].
  unfold bind, loader_start, http_get, modify.
  cbn [_loader log set_currentPid set_tags].
  destruct (_loader w); cbn; auto.
Qed.

(** *** The bar built by [renderBar] *)

Lemma renderBar_world pid current w :
  (∀ b, _bar w = Some b → PaginationBar.dollar b = true) →
  renderBar PROCESS_TREE_PAGINATION_INFO pid current w =
    (Ok tt,
     let w2 := log (EvSetCurrentPage current) (set_currentPage current w) in
     let w3 := match _bar w with
               | Some _ => log EvBarDestroy (set_pagination [] w2)
               | None => w2
               end in
     let bc := PaginationBar.new_bar
        {| PaginationBar.opt_container := Some true;
           PaginationBar.opt_currentPage := None;
           PaginationBar.opt_totalPages :=
             Int <$> PROCESS_TREE_PAGINATION_INFO !! to_string pid;
           PaginationBar.opt_display := None;
           PaginationBar.opt_onPaginate := Some (PaginationBar.CbLoadPage pid) |}
        (pagination w3) in
     log (EvBarRender bc.2) (set_bar (Some bc.1) (set_pagination bc.2 w3))).
Proof.
  intros Hbound. unfold renderBar. rewrite bind_modify, bind_get.
  cbn [_bar log set_currentPage].
  destruct (_bar w) as [b|] eqn:Hb.
  - pose proof (Hbound b eq_refl) as Hd.
    unfold bind, bar_destroy, PaginationBar.destroy. rewrite Hd. reflexivity.
  - reflexivity.
Qed.

(** Whatever [current] is given, the bar that [renderBar] builds starts on
    page 1, with the page count of the pid, or 40 when the page has no count
    for it; the view's own [currentPage] becomes [current]. *)
Theorem renderBar_starts_on_page_1
    (p : Page) (xs : list Input) (pid current : JsVal) :
  let w := steps (new_view p) xs in
  let r := renderBar PROCESS_TREE_PAGINATION_INFO pid current w in
  fst r = Ok tt ∧
  currentPage (snd r) = current ∧
  ∃ b, _bar (snd r) = Some b ∧
       PaginationBar.currentPage (PaginationBar.config b) = Int 1 ∧
       PaginationBar.totalPages (PaginationBar.config b) =
         default (Int 40) (Int <$> PROCESS_TREE_PAGINATION_INFO !! to_string pid) ∧
       pagination (snd r) = PaginationBar.render_html (PaginationBar.config b) ∧
       pagination (snd r) !! 0%nat =
         Some {| PaginationBar.text := PaginationBar.PNum (Int 1);
                 PaginationBar.active := true;
                 PaginationBar.href := Some "page:1" |}.
Proof.
  intros w r. subst r.
  rewrite renderBar_world.
  2:{ intros b. apply (reachable_bar_bound task_id PROCESS_TREE_PAGINATION_INFO
        JSON_parse parseHTML p xs). }
  cbn [fst snd]. split; [reflexivity|]. split.
  { cbn. by destruct (_bar w). }
  eexists. split; [cbn; reflexivity|].
  cbn. destruct (_bar w); cbn; repeat split; try reflexivity;
    apply render_html_first.
Qed.

(** For a pid without a page count the bar still appears, with the links of
    40 pages: 1 to 11, an ellipsis, 40. *)
Theorem renderBar_unknown_pid
    (p : Page) (xs : list Input) (pid current : JsVal) :
  PROCESS_TREE_PAGINATION_INFO !! to_string pid = None →
  let w := steps (new_view p) xs in
  PaginationBar.text <$>
    pagination (snd (renderBar PROCESS_TREE_PAGINATION_INFO pid current w)) =
  (PaginationBar.PNum ∘ Int <$> [1; 2; 3; 4; 5; 6; 7; 8; 9; 10; 11])
  ++ [PaginationBar.PDots; PaginationBar.PNum (Int 40)].
Proof.
  intros Hpid w.
  rewrite renderBar_world.
  2:{ intros b. apply (reachable_bar_bound task_id PROCESS_TREE_PAGINATION_INFO
        JSON_parse parseHTML p xs). }
  cbn [snd]. rewrite Hpid.
  cbn [pagination log set_bar set_pagination snd fst].
  destruct (_bar w); reflexivity.
Qed.

End ViewFilters.

Section ViewRequests.

Import ProcessBehaviorView.

Variable task_id : JsVal.
Variable PROCESS_TREE_PAGINATION_INFO : gmap string Z.
Variable JSON_parse : string -> option Parsed.
Variable parseHTML : string -> option Fragment.

Ltac keeps :=
  repeat (cbv zeta;
    match goal with
    | |- preserves _ (ret _) => apply preserves_ret
    | |- preserves _ (throw _) => apply preserves_throw
    | |- preserves _ get => apply preserves_get
    | |- preserves _ (bind _ _) => apply preserves_bind; [|intros ?]
    | |- preserves _ (modify _) => apply preserves_modify; intros ? ?
    | |- preserves _ (if ?b then _ else _) => destruct b
    | |- preserves _ (match ?x with _ => _ end) => destruct x
    end).

(** A property of the requests in flight that issuing one more keeps. *)
Variable R : list string → Prop.
Hypothesis R_more : ∀ rs url, R rs → R (rs ++ [url]).

Let I (w : World) : Prop := R (requests w).

Lemma loader_start_requests : preserves I loader_start.
Proof.
  intros w Hw. unfold loader_start. destruct (_loader w); exact Hw.
Qed.

Lemma loadChunk_requests pid filter : preserves I (loadChunk task_id pid filter).
Proof.
  unfold loadChunk, http_get. keeps; try exact loader_start_requests; try exact H.
  all: by apply R_more.
Qed.

Lemma bar_destroy_requests b : preserves I (bar_destroy b).
Proof.
  intros w Hw. unfold bar_destroy.
  destruct (PaginationBar.destroy b (pagination w)); exact Hw.
Qed.

Lemma renderBar_requests pid current :
  preserves I (renderBar PROCESS_TREE_PAGINATION_INFO pid current).
Proof.
  unfold renderBar. keeps; try apply bar_destroy_requests; try exact H.
  all: match goal with
       | |- context [PaginationBar.new_bar ?o ?c] =>
           destruct (PaginationBar.new_bar o c); exact H
       end.
Qed.

Lemma populate_requests el :
  preserves I (populate PROCESS_TREE_PAGINATION_INFO JSON_parse el).
Proof.
  unfold populate, parseProcessData.
  keeps; try apply renderBar_requests; exact H.
Qed.

Lemma call_requests cb page : preserves I (call task_id cb page).
Proof. unfold call. keeps; try apply loadChunk_requests; exact H. Qed.

Lemma click_requests x :
  is_click x →
  preserves I (handler task_id PROCESS_TREE_PAGINATION_INFO JSON_parse parseHTML x).
Proof.
  destruct x; cbn [is_click handler]; intros Hx; try contradiction.
  - keeps. exact H.
  - unfold on_header. keeps. exact H.
  - unfold on_load. keeps; try apply loadChunk_requests;
      try apply populate_requests; exact H.
  - unfold on_filter. keeps; try apply loadChunk_requests;
      try apply bar_destroy_requests; exact H.
  - unfold on_page. keeps; try apply call_requests; try exact H.
    all: match goal with
         | |- I (if ?c then _ else _) => destruct c; exact H
         end.
  - unfold reset_filter. keeps; try apply loadChunk_requests; exact H.
Qed.

End ViewRequests.

Section ViewNoCancel.

Import ProcessBehaviorView.

Variable task_id : JsVal.
Variable PROCESS_TREE_PAGINATION_INFO : gmap string Z.
Variable JSON_parse : string -> option Parsed.
Variable parseHTML : string -> option Fragment.

(** No click cancels a request: the requests in flight before a click are
    still in flight after it, in the same order, whatever the handler does
    and also when it throws. *)
Theorem clicks_never_cancel (w : World) (x : Input) :
  is_click x →
  requests w `prefix_of`
    requests (step task_id PROCESS_TREE_PAGINATION_INFO JSON_parse parseHTML w x).
Proof.
  intros Hx.
  apply (click_requests task_id PROCESS_TREE_PAGINATION_INFO JSON_parse parseHTML
           (λ rs, requests w `prefix_of` rs)); [|exact Hx|reflexivity].
  intros rs url Hrs. by apply prefix_app_r.
Qed.

End ViewNoCancel.

Section ViewMoreWitnesses.

Import ProcessBehaviorView.

Lemma on_page_order_witness :
  let task_id := VNum (Int 7) in
  let w := demo_loaded_world in
  let pid := VNum (Int 4) in
  let b := {| PaginationBar.config :=
                int_config true 1 40 (Int 20) (PaginationBar.CbLoadPage pid);
              PaginationBar.dollar := true |} in
  let l := {| PaginationBar.text := PaginationBar.PNum (Int 5);
              PaginationBar.active := false;
              PaginationBar.href := Some "page:5" |} in
  _bar w = Some b ∧
  PaginationBar.dollar b = true ∧
  PaginationBar.container (PaginationBar.config b) = true ∧
  PaginationBar.onPaginate (PaginationBar.config b) = PaginationBar.CbLoadPage pid ∧
  pagination w !! 4%nat = Some l ∧
  PaginationBar.href l = Some ("page:" +:+ num_to_string 5) ∧
  _loader w = Some {| loading := true |} ∧
  let w' := step task_id ∅ demo_JSON_parse demo_parseHTML w (ClickPage 4) in
  let page := VStr (num_to_string 5) in
  let b' := {| PaginationBar.config :=
                 {| PaginationBar.container := true;
                    PaginationBar.currentPage := Int 5;
                    PaginationBar.totalPages :=
                      PaginationBar.totalPages (PaginationBar.config b);
                    PaginationBar.display :=
                      PaginationBar.display (PaginationBar.config b);
                    PaginationBar.onPaginate := PaginationBar.CbLoadPage pid |};
               PaginationBar.dollar := true |} in
  _bar w' = Some b' ∧
  PaginationBar.currentPage (PaginationBar.config b') = Int 5 ∧
  (∀ l', l' ∈ pagination w' →
         PaginationBar.active l' = true ↔
         PaginationBar.text l' = PaginationBar.PNum (Int 5)) ∧
  pagination w' = PaginationBar.render_html (PaginationBar.config b') ∧
  currentPage w' = page ∧
  trace w' = trace w ++
    [EvBarRender (PaginationBar.render_html (PaginationBar.config b'));
     EvOnPaginate page; EvSetCurrentPage page; EvSetCurrentPid pid;
     EvLoaderStart; EvGet (chunk_url task_id pid page)].
Proof.
  intros task_id w pid b l.
  assert (Hb : _bar w = Some b) by (vm_compute; reflexivity).
  assert (Hi : pagination w !! 4%nat = Some l) by (vm_compute; reflexivity).
  assert (Hl : _loader w = Some {| loading := true |}) by (vm_compute; reflexivity).
  split; [exact Hb|]. do 3 (split; [reflexivity|]). split; [exact Hi|].
  split; [reflexivity|]. split; [exact Hl|].
  exact (on_page_order task_id ∅ demo_JSON_parse demo_parseHTML w b 4 l 5 pid
           {| loading := true |} Hb eq_refl eq_refl eq_refl Hi eq_refl Hl).
Defined.

Lemma click_load_requests_old_page_witness :
  let task_id := VNum (Int 7) in
  let p := demo_loading_page in
  let xs := [ClickLoad (VNum (Int 4)) "{}"; ClickPage 4] in
  let data := {| pid := VNum (Int 4); ppid := VNum (Int 1); name := VStr "a.exe" |} in
  let load := VNum (Int 9) in
  page_loading p ≠ 0%nat ∧
  demo_JSON_parse "{}" = Some (JRecord data) ∧
  let w := steps task_id ∅ demo_JSON_parse demo_parseHTML (new_view p) xs in
  let w' := step task_id ∅ demo_JSON_parse demo_parseHTML w (ClickLoad load "{}") in
  requests w' = requests w ++ [chunk_url task_id load (currentPage w)] ∧
  currentPid w' = load ∧
  currentPage w' = VNum (Int 1) ∧
  _loader w' = Some {| loading := true |} ∧
  tags w' = clear_active <$> tags w ∧
  ∃ b, _bar w' = Some b ∧
       PaginationBar.currentPage (PaginationBar.config b) = Int 1 ∧
       PaginationBar.onPaginate (PaginationBar.config b)
         = PaginationBar.CbLoadPage (pid data) ∧
       pagination w' = PaginationBar.render_html (PaginationBar.config b).
Proof.
  intros task_id p xs data load.
  assert (Hp : page_loading p ≠ 0%nat) by discriminate.
  split; [exact Hp|]. split; [reflexivity|].
  exact (click_load_requests_old_page task_id ∅ demo_JSON_parse demo_parseHTML
           p xs load "{}" data Hp eq_refl).
Defined.

Lemma click_load_bad_json_witness :
  let task_id := VNum (Int 7) in
  let parse := (λ _ : string, @None Parsed) in
  let w := demo_world in
  let load := VNum (Int 9) in
  _loader w = Some {| loading := false |} ∧
  parse "{" = None ∧
  let w' := step task_id ∅ parse demo_parseHTML w (ClickLoad load "{") in
  requests w' = requests w ++ [chunk_url task_id load (currentPage w)] ∧
  currentPid w' = load ∧
  _loader w' = Some {| loading := true |} ∧
  currentPage w' = currentPage w ∧
  _bar w' = _bar w ∧
  pagination w' = pagination w ∧
  placeholders w' = placeholders w ∧
  tags w' = tags w.
Proof.
  intros task_id parse w load. split; [reflexivity|]. split; [reflexivity|].
  exact (click_load_bad_json task_id ∅ parse demo_parseHTML w
           {| loading := false |} load "{" eq_refl eq_refl).
Defined.

Lemma success_without_node_witness :
  let task_id := VNum (Int 7) in
  let parse := (λ _ : string, @None Fragment) in
  let w := demo_loaded_world in
  let u := "/analysis/chunk/7/4/1" in
  _loader w = Some {| loading := true |} ∧
  requests w !! 0%nat = Some u ∧
  parse "" = None ∧
  let w' := step task_id ∅ demo_JSON_parse parse w (Success 0 "") in
  _loader w' = Some {| loading := false |} ∧
  requests w' = delete 0%nat (requests w) ∧
  behavior_table w' = behavior_table w ∧
  loaded_shown w' = true ∧
  unloaded_shown w' = false.
Proof.
  intros task_id parse w u.
  assert (Hl : _loader w = Some {| loading := true |}) by (vm_compute; reflexivity).
  assert (Hu : requests w !! 0%nat = Some u) by (vm_compute; reflexivity).
  split; [exact Hl|]. split; [exact Hu|]. split; [reflexivity|].
  exact (success_without_node task_id ∅ demo_JSON_parse parse w
           {| loading := true |} 0 u "" Hl Hu eq_refl).
Defined.

Lemma placed_table_classes_witness :
  let f := {| frag_classes := {["table"; "table-bordered"; "wide"]};
              frag_columns := 2; frag_rows := ["<tr/>"] |} in
  let parse := (λ _ : string, Some f) in
  parse "" = Some f ∧
  ∃ t, behavior_table (run (renderTable parse "") demo_world) = Some t ∧
       "cuckoo-table" ∈ table_classes t ∧
       ("table" ∉ table_classes t) ∧
       ("table-bordered" ∉ table_classes t) ∧
       (∀ c, c ≠ "cuckoo-table" → c ≠ "table" → c ≠ "table-bordered" →
             c ∈ table_classes t ↔ c ∈ frag_classes f).
Proof.
  intros f parse. split; [reflexivity|].
  exact (placed_table_classes parse demo_world "" f eq_refl).
Defined.

Lemma early_response_stops_loader_witness :
  let task_id := VNum (Int 7) in
  let w := demo_busy_world in
  _loader w = Some {| loading := true |} ∧
  is_Some (requests w !! 0%nat) ∧
  (2 ≤ length (requests w))%nat ∧
  let w' := step task_id ∅ demo_JSON_parse demo_parseHTML w (Success 0 "") in
  _loader w' = Some {| loading := false |} ∧ requests w' ≠ [].
Proof.
  intros task_id w.
  assert (Hl : _loader w = Some {| loading := true |}) by (vm_compute; reflexivity).
  assert (Hu : is_Some (requests w !! 0%nat)) by (vm_compute; eauto).
  assert (Hn : (2 ≤ length (requests w))%nat) by (vm_compute; lia).
  split; [exact Hl|]. split; [exact Hu|]. split; [exact Hn|].
  exact (early_response_stops_loader task_id ∅ demo_JSON_parse demo_parseHTML w
           {| loading := true |} 0 "" Hl Hu Hn).
Defined.

Lemma latest_response_shown_witness :
  let task_id := VNum (Int 7) in
  let w := demo_busy_world in
  let f2 := {| frag_classes := {["table"]}; frag_columns := 3; frag_rows := [] |} in
  _loader w = Some {| loading := true |} ∧
  is_Some (requests w !! 1%nat) ∧
  is_Some (delete 1%nat (requests w) !! 0%nat) ∧
  demo_parseHTML "late" = Some f2 ∧
  behavior_table
    (steps task_id ∅ demo_JSON_parse demo_parseHTML w
       [Success 1 "early"; Success 0 "late"])
    = Some (placed_table f2).
Proof.
  intros task_id w f2.
  assert (Hl : _loader w = Some {| loading := true |}) by (vm_compute; reflexivity).
  assert (Hu : is_Some (requests w !! 1%nat)) by (vm_compute; eauto).
  assert (Hv : is_Some (delete 1%nat (requests w) !! 0%nat)) by (vm_compute; eauto).
  split; [exact Hl|]. split; [exact Hu|]. split; [exact Hv|]. split; [reflexivity|].
  exact (latest_response_shown task_id ∅ demo_JSON_parse demo_parseHTML w
           {| loading := true |} 1 0 "early" "late" f2 Hl Hu Hv eq_refl).
Defined.

Lemma filter_of_href_witness :
  contains ":" "registry" = false ∧
  index (split ":" ("filter:" +:+ "registry")) 1 = VStr "registry" ∧
  index (split ":" ("filter:" +:+ "registry" +:+ ":" +:+ "read")) 1 = VStr "registry".
Proof.
  split; [reflexivity|]. exact (filter_of_href "registry" "read" eq_refl).
Defined.

Lemma click_filter_effect_witness :
  let task_id := VNum (Int 7) in
  let p := demo_loading_page in
  let xs := [ClickLoad (VNum (Int 4)) "{}"] in
  let t := {| tag_href := "filter:registry"; tag_classes := ∅ |} in
  let step := step task_id ∅ demo_JSON_parse demo_parseHTML in
  let steps := steps task_id ∅ demo_JSON_parse demo_parseHTML in
  page_loading p ≠ 0%nat ∧
  tags (steps (new_view p) xs) !! 0%nat = Some t ∧
  String.prefix "filter:" (tag_href t) = true ∧
  let w := steps (new_view p) xs in
  let w' := step w (ClickFilter 0) in
  let filter := index (split ":" (tag_href t)) 1 in
  requests w' =
    requests w ++ [if truthy filter
                   then filtered_url task_id (currentPid w) filter
                   else chunk_url task_id (currentPid w) (currentPage w)] ∧
  currentPid w' = currentPid w ∧
  pagination w' = match _bar w with Some _ => [] | None => pagination w end ∧
  (∀ j, step w' (ClickPage j) = w') ∧
  (∀ j t', tags w' !! j = Some t' → "active" ∈ tag_classes t' ↔ j = 0%nat).
Proof.
  intros task_id p xs t step steps.
  assert (Hp : page_loading p ≠ 0%nat) by discriminate.
  assert (Ht : tags (steps (new_view p) xs) !! 0%nat = Some t)
    by (vm_compute; reflexivity).
  split; [exact Hp|]. split; [exact Ht|]. split; [reflexivity|].
  exact (click_filter_effect task_id ∅ demo_JSON_parse demo_parseHTML p xs 0 t
           Hp Ht eq_refl).
Defined.

Lemma filter_before_selection_witness :
  let task_id := VNum (Int 7) in
  let p := demo_loading_page in
  let t := {| tag_href := "filter:registry"; tag_classes := {["active"]} |} in
  page_loading p ≠ 0%nat ∧
  page_tags p !! 0%nat = Some t ∧
  tag_href t = "filter:" +:+ "registry" ∧
  contains ":" "registry" = false ∧
  "registry" ≠ "" ∧
  requests (step task_id ∅ demo_JSON_parse demo_parseHTML (new_view p) (ClickFilter 0)) =
    ["/analysis/filtered/" +:+ to_string task_id +:+ "/null/" +:+ "registry"].
Proof.
  intros task_id p t.
  assert (Hp : page_loading p ≠ 0%nat) by discriminate.
  assert (Hne : "registry" ≠ "") by discriminate.
  split; [exact Hp|]. do 3 (split; [reflexivity|]). split; [exact Hne|].
  exact (filter_before_selection task_id ∅ demo_JSON_parse demo_parseHTML p 0 t
           "registry" Hp eq_refl eq_refl eq_refl Hne).
Defined.

Lemma renderBar_unknown_pid_witness :
  let info : gmap string Z := {["4" := 3]} in
  let pid := VNum (Int 5) in
  info !! to_string pid = None ∧
  let w := steps (VNum (Int 7)) info demo_JSON_parse demo_parseHTML
             (new_view demo_loading_page) [] in
  PaginationBar.text <$>
    pagination (snd (renderBar info pid (VNum (Int 1)) w)) =
  (PaginationBar.PNum ∘ Int <$> [1; 2; 3; 4; 5; 6; 7; 8; 9; 10; 11])
  ++ [PaginationBar.PDots; PaginationBar.PNum (Int 40)].
Proof.
  intros info pid.
  assert (Hi : info !! to_string pid = None) by (vm_compute; reflexivity).
  split; [exact Hi|].
  exact (renderBar_unknown_pid (VNum (Int 7)) info demo_JSON_parse demo_parseHTML
           demo_loading_page [] pid (VNum (Int 1)) Hi).
Defined.

Lemma clicks_never_cancel_witness :
  let task_id := VNum (Int 7) in
  let x := ClickLoad (VNum (Int 6)) "{}" in
  is_click x ∧
  requests demo_busy_world `prefix_of`
    requests (step task_id ∅ demo_JSON_parse demo_parseHTML demo_busy_world x).
Proof.
  intros task_id x. split; [exact Logic.I|].
  exact (clicks_never_cancel task_id ∅ demo_JSON_parse demo_parseHTML
           demo_busy_world x Logic.I).
Defined.

End ViewMoreWitnesses.
